(** * The package directory page: download counter and repository loader

    A shallow embedding of the two scripts of the page,
    [functions/downloadcounter.js] (class [DownloadCounter]) and the
    repository loader with URL support (class [RepositoryLoader]: manifest
    loading, tag index, filters, URL state), and the properties of the
    manifest aggregation and filtering pipeline proved over it.

    Conventions of the embedding:
    - a JavaScript string is a [string]: a sequence of code units below 256
      (the Latin-1 range), on which [toLowerCase], [trim] and the default
      sort order are the ECMAScript ones;
    - a JavaScript value is a [value]; numbers are the integers (counts,
      far below 2^53, where the engine's arithmetic is exact) and [NaN];
    - code that can throw returns a [result]; [try]/[catch] is a match on it;
    - a [Set] is the list of its elements in insertion order, a [Map] is a
      [gmap];
    - the network is a function from the requested URL to a [response]. *)

From Stdlib Require Import ZArith Ascii String DecimalString.
From stdpp Require Import base option list sorting strings gmap.

Local Open Scope Z_scope.
Set Warnings "-register-all,-clear-no-such-hyp".


(** ** Strings *)

Module Str.

Definition code (c : ascii) : Z := Z.of_nat (nat_of_ascii c).
Definition chr (n : Z) : ascii := ascii_of_nat (Z.to_nat n).

(** [String.prototype.toLowerCase] on one code unit of the Latin-1 range:
    A-Z and the accented capitals U+00C0..U+00DE (but the multiplication
    sign U+00D7) move 32 places up. *)
Definition lower_char (c : ascii) : ascii :=
  let n := code c in
  if ((65 <=? n) && (n <=? 90)) || ((192 <=? n) && (n <=? 222) && negb (n =? 215))
  then chr (n + 32) else c.

Fixpoint toLowerCase (s : string) : string :=
  match s with
  | EmptyString => EmptyString
  | String c r => String (lower_char c) (toLowerCase r)
  end.

(** WhiteSpace and LineTerminator code units of the Latin-1 range:
    TAB, LF, VT, FF, CR, SP and NBSP. *)
Definition is_space (c : ascii) : bool :=
  let n := code c in
  ((9 <=? n) && (n <=? 13)) || (n =? 32) || (n =? 160).

Fixpoint trimStart (s : string) : string :=
  match s with
  | EmptyString => EmptyString
  | String c r => if is_space c then trimStart r else s
  end.

Fixpoint trimEnd (s : string) : string :=
  match s with
  | EmptyString => EmptyString
  | String c r =>
      match trimEnd r with
      | EmptyString => if is_space c then EmptyString else String c EmptyString
      | r' => String c r'
      end
  end.

(** [String.prototype.trim] *)
Definition trim (s : string) : string := trimEnd (trimStart s).

(** [s.startsWith(t)] *)
Fixpoint startsWith (s t : string) : bool :=
  match t, s with
  | EmptyString, _ => true
  | String a t', String b s' => Ascii.eqb a b && startsWith s' t'
  | String _ _, EmptyString => false
  end.

(** [s.includes(t)]: [t] occurs in [s] as a contiguous substring. *)
Fixpoint includes (s t : string) : bool :=
  startsWith s t ||
  match s with
  | EmptyString => false
  | String _ r => includes r t
  end.

(** [s.split(',')]: never the empty list; [split "" = [""]]. *)
Fixpoint split (s : string) : list string :=
  match s with
  | EmptyString => [EmptyString]
  | String c r =>
      if Ascii.eqb c ","%char then EmptyString :: split r
      else match split r with
           | [] => [String c EmptyString]
           | x :: xs => String c x :: xs
           end
  end.

(** [l.join(',')] on an array of strings *)
Fixpoint join (l : list string) : string :=
  match l with
  | [] => EmptyString
  | [x] => x
  | x :: xs => x +:+ "," +:+ join xs
  end.

Definition is_alnum (c : ascii) : bool :=
  let n := code c in
  ((97 <=? n) && (n <=? 122)) || ((48 <=? n) && (n <=? 57)).

(** [s.replace(/[^a-z0-9]+/g, '-')]: [in_run] tells that the previous
    code unit already belongs to the run being replaced. *)
Fixpoint replace_runs (in_run : bool) (s : string) : string :=
  match s with
  | EmptyString => EmptyString
  | String c r =>
      if is_alnum c then String c (replace_runs false r)
      else if in_run then replace_runs true r
      else String "-" (replace_runs true r)
  end.

Fixpoint no_comma (s : string) : bool :=
  match s with
  | EmptyString => true
  | String c r => negb (Ascii.eqb c ","%char) && no_comma r
  end.

(** The slug of a name, in the words of the specification: the name in
    lower case, where every run of characters outside [a-z0-9] is
    replaced by a single hyphen. [slugged s t] reads [s] run by run: a
    character of [a-z0-9] is kept, a maximal run of other characters
    gives one hyphen. *)
Fixpoint all_outside (s : string) : bool :=
  match s with
  | EmptyString => true
  | String c r => negb (is_alnum c) && all_outside r
  end.

Definition starts_inside (s : string) : bool :=
  match s with
  | EmptyString => true
  | String c _ => is_alnum c
  end.

Inductive slugged : string -> string -> Prop :=
| slugged_nil : slugged "" ""
| slugged_keep c s t :
    is_alnum c = true -> slugged s t -> slugged (String c s) (String c t)
| slugged_run c run s t :
    is_alnum c = false -> all_outside run = true -> starts_inside s = true ->
    slugged s t -> slugged (String c run +:+ s) (String "-" t).

Definition slug (name : string) : string :=
  replace_runs false (toLowerCase name).

(** [q] is a substring of [s] up to the case of the letters: a part of
    [s] and [q] have the same lower-case form. *)
Definition ci_substring (q s : string) : Prop :=
  exists pre mid post,
    s = pre +:+ mid +:+ post /\ toLowerCase mid = toLowerCase q.

(** Every code unit of [s] satisfies [p]. *)
Fixpoint all_chars (p : ascii -> bool) (s : string) : bool :=
  match s with
  | EmptyString => true
  | String c r => p c && all_chars p r
  end.

Definition is_hyphen (c : ascii) : bool := Ascii.eqb c "-"%char.
Definition not_slash (c : ascii) : bool := negb (Ascii.eqb c "/"%char).
Definition not_g (c : ascii) : bool := negb (Ascii.eqb c "g"%char).

(** [n.toString()] for an integer [n] *)
Definition of_Z (n : Z) : string := NilZero.string_of_int (Z.to_int n).

End Str.

(** ** Binary64 arithmetic: sums, division and [toFixed(1)]

    The numbers of the page are binary64 numbers. The sum of two integers
    is the binary64 number nearest to the exact sum (ties to the even
    significand): the exact sum up to 2^53, a rounded one beyond.
    [formatCount] divides two integers below 2^53 and prints the quotient
    with one decimal. The quotient is the binary64 number nearest to the
    exact one; it is kept as the pair of its significand and of the power
    of two that scales it. *)

Module Float.

(** The number [mant / 2^scale]. *)
Record t := mk { mant : Z; scale : Z }.

(** The integer nearest to [a / b], ties to even. *)
Definition round_half_even (a b : Z) : Z :=
  let d := a / b in
  let r := a mod b in
  if 2 * r <? b then d
  else if b <? 2 * r then d + 1
  else if Z.even d then d else d + 1.

(** The binary64 number nearest to the integer [z], for [z] below 2^1024
    in magnitude (beyond, the number is an infinity, which the values of
    this development do not have): an integer of magnitude at most 2^53 is
    held as it is, a larger one is rounded to 53 significant bits. *)
Definition nearest (z : Z) : Z :=
  if Z.abs z <=? 2 ^ 53 then z
  else
    let e := Z.log2 (Z.abs z) - 52 in
    round_half_even z (2 ^ e) * 2 ^ e.

(** [p / q] for [0 < q <= p < 2^53]: the scale brings the exact quotient
    into [2^52, 2^53), where it is rounded to an integer. *)
Definition div (p q : Z) : t :=
  let s := Z.log2 p - Z.log2 q in
  let k := if q * 2 ^ s <=? p then 52 - s else 53 - s in
  {| mant := round_half_even (p * 2 ^ k) q; scale := k |}.

(** The integer [n] for which [n / 10 - x] is as close to zero as
    possible, the larger one when there are two. *)
Definition tenths (x : t) : Z :=
  (20 * mant x + 2 ^ scale x) / 2 ^ (scale x + 1).

(** The digits of [n / 10] with one decimal. *)
Definition decimal1 (n : Z) : string :=
  Str.of_Z (n / 10) +:+ "." +:+ Str.of_Z (n mod 10).

(** [x.toFixed(1)] for [0 <= x < 1e21] *)
Definition toFixed1 (x : t) : string := decimal1 (tenths x).

End Float.

(** ** Values and exceptions *)

(** The values that JSON text gives, and [undefined] and NaN. A number is
    an integer here, one that a binary64 number holds. *)
Inductive value :=
| VUndefined
| VNull
| VBool (b : bool)
| VNum (n : Z)
| VNaN
| VStr (s : string)
| VArr (elems : list value)
| VObj (fields : list (string * value)).

Inductive exn :=
| TypeError      (* a property read on null/undefined, a call of a non-function *)
| SyntaxError    (* response.json() on a body that is not JSON *)
| NetworkFailure (* fetch rejects *)
| HttpError.     (* thrown by the page on a response that is not ok *)

Inductive result (A : Type) :=
| Ok (a : A)
| Throw (e : exn).
Arguments Ok {A} a.
Arguments Throw {A} e.

#[global] Instance result_ret : MRet result := fun A a => Ok a.
#[global] Instance result_bind : MBind result := fun A B f m =>
  match m with
  | Ok a => f a
  | Throw e => Throw e
  end.

Module JS.

(** ToBoolean *)
Definition truthy (v : value) : bool :=
  match v with
  | VUndefined | VNull | VNaN => false
  | VBool b => b
  | VNum n => negb (n =? 0)
  | VStr s => negb (String.eqb s "")
  | VArr _ | VObj _ => true
  end.

(** [a || b], for a [b] whose evaluation has no effect *)
Definition or (a b : value) : value := if truthy a then a else b.

Fixpoint assoc (k : string) (fields : list (string * value)) : value :=
  match fields with
  | [] => VUndefined
  | (k', v) :: r => if String.eqb k k' then v else assoc k r
  end.

(** [v.k] for the field names the page reads; none of them is a property
    of a string, number, boolean or array. *)
Definition get (v : value) (k : string) : result value :=
  match v with
  | VUndefined | VNull => Throw TypeError
  | VObj fields => Ok (assoc k fields)
  | _ => Ok VUndefined
  end.

(** [v?.k] *)
Definition get_opt (v : value) (k : string) : result value :=
  match v with
  | VUndefined | VNull => Ok VUndefined
  | _ => get v k
  end.

Definition isArray (v : value) : bool :=
  match v with VArr _ => true | _ => false end.

(** [v.toLowerCase()] resolves to the string method on strings only. *)
Definition toLowerCase (v : value) : result string :=
  match v with
  | VStr s => Ok (Str.toLowerCase s)
  | _ => Throw TypeError
  end.

(** ToString *)
Fixpoint to_string (v : value) : string :=
  match v with
  | VUndefined => "undefined"
  | VNull => "null"
  | VBool true => "true"
  | VBool false => "false"
  | VNum n => Str.of_Z n
  | VNaN => "NaN"
  | VStr s => s
  | VArr l =>
      Str.join (map (fun x => match x with
                              | VUndefined | VNull => ""
                              | _ => to_string x
                              end) l)
  | VObj _ => "[object Object]"
  end.

(** ToNumber on the values that are not converted to a string by [+];
    [None] is NaN. *)
Definition to_number (v : value) : option Z :=
  match v with
  | VNull => Some 0
  | VBool b => Some (if b then 1 else 0)
  | VNum n => Some n
  | _ => None
  end.

Definition stringish (v : value) : bool :=
  match v with VStr _ | VArr _ | VObj _ => true | _ => false end.

(** [a + b]: a concatenation when an operand is a string, an array or an
    object; else the binary64 sum of the two numbers. *)
Definition add (a b : value) : value :=
  if stringish a || stringish b then VStr (to_string a +:+ to_string b)
  else match to_number a, to_number b with
       | Some x, Some y => VNum (Float.nearest (x + y))
       | _, _ => VNaN
       end.

(** [l.join(',')] on an array of values: ToString of each element, the
    empty string for [undefined] and [null]. *)
Definition join (l : list value) : string := to_string (VArr l).

(** The default comparison of [Array.prototype.sort]: [undefined] last,
    the other values by the code units of their ToString. *)
Definition sort_le (x y : value) : bool :=
  match x, y with
  | _, VUndefined => true
  | VUndefined, _ => false
  | _, _ => String.leb (to_string x) (to_string y)
  end.

Definition le (x y : value) : Prop := sort_le x y = true.

Fixpoint insert_sorted (x : value) (l : list value) : list value :=
  match l with
  | [] => [x]
  | y :: r => if sort_le x y then x :: l else y :: insert_sorted x r
  end.

(** [l.sort()]: the sort is stable, so its result is the one of any
    stable sort; here, insertion from the right. *)
Definition sort (l : list value) : list value := foldr insert_sorted [] l.

End JS.

(** Structural equality of values is decidable; on the primitive values it
    is the SameValueZero comparison of [Set] and [Map]. *)
Fixpoint value_eq_dec (a b : value) {struct a} : {a = b} + {a <> b}.
Proof.
  decide equality.
  - apply bool_dec.
  - apply Z.eq_dec.
  - apply string_dec.
  - revert elems0. induction elems as [|x xs IH]; intros [|y ys];
      try (right; discriminate); [left; reflexivity|].
    destruct (value_eq_dec x y) as [->|Hn]; [|right; congruence].
    destruct (IH ys) as [->|Hn]; [left; reflexivity|right; congruence].
  - revert fields0. induction fields as [|[k x] xs IH]; intros [|[k' y] ys];
      try (right; discriminate); [left; reflexivity|].
    destruct (string_dec k k') as [->|Hn]; [|right; congruence].
    destruct (value_eq_dec x y) as [->|Hn]; [|right; congruence].
    destruct (IH ys) as [->|Hn]; [left; reflexivity|right; congruence].
Defined.

#[global] Instance value_eq_decision : EqDecision value := value_eq_dec.

(** ** DownloadCounter.formatCount *)

Definition formatCount (count : Z) : string :=
  if 1000000 <=? count then
    Float.toFixed1 (Float.div count 1000000) +:+ "M"
  else if 1000 <=? count then
    Float.toFixed1 (Float.div count 1000) +:+ "K"
  else Str.of_Z count.

(** ** The network *)

(** What [fetch(url)] followed by [response.json()] gives: the request is
    rejected, or a response arrives with its [ok] flag and a body that
    parses as JSON ([Some]) or not ([None]). *)
Inductive response :=
| Rejected
| Response (ok : bool) (body : option value).

(** [for (x of l) acc = f(acc, x)] with a body that can throw *)
Fixpoint foldM {A B : Type} (f : A -> B -> result A) (acc : A) (l : list B)
  : result A :=
  match l with
  | [] => Ok acc
  | x :: r => acc' ← f acc x; foldM f acc' r
  end.

(** ** DownloadCounter *)

Module DownloadCounter.

(** The counter: its [cache] and, as a log, the URLs requested so far. *)
Record t := mk { cache : gmap string value; requests : list string }.

Definition new : t := {| cache := ∅; requests := [] |}.

Section Net.

(** The answer of the network to the [n]-th request of the session. *)
Variable net : nat -> string -> response.

(** [totalDownloads += asset.download_count || 0] *)
Definition add_asset (total asset : value) : result value :=
  count ← JS.get asset "download_count";
  Ok (JS.add total (JS.or count (VNum 0))).

Definition add_release (total release : value) : result value :=
  assets ← JS.get release "assets";
  if JS.truthy assets && JS.isArray assets then
    match assets with
    | VArr l => foldM add_asset total l
    | _ => Ok total
    end
  else Ok total.

(** [releases.forEach(...)] starting from [totalDownloads = 0];
    a value that is not an array has no [forEach]. *)
Definition totalDownloads (releases : value) : result value :=
  match releases with
  | VArr l => foldM add_release (VNum 0) l
  | _ => Throw TypeError
  end.

(** The body of the [try] block, for the [n]-th request. *)
Definition try_fetch (n : nat) (releaseUrl : string) : result value :=
  match net n releaseUrl with
  | Rejected => Throw NetworkFailure
  | Response ok body =>
      if negb ok then Throw HttpError
      else match body with
           | None => Throw SyntaxError
           | Some releases => totalDownloads releases
           end
  end.

(** A call runs to its end before the next one starts, as in the loop
    of [renderPackages], which awaits each card. *)
Definition fetchDownloadCount (releaseUrl : string) (c : t) : value * t :=
  match cache c !! releaseUrl with
  | Some v => (v, c)
  | None =>
      let sent := requests c ++ [releaseUrl] in
      match try_fetch (length (requests c)) releaseUrl with
      | Ok total =>
          (total, {| cache := <[releaseUrl := total]> (cache c);
                     requests := sent |})
      | Throw _ => (VNum 0, {| cache := cache c; requests := sent |})
      end
  end.

(** A sequence of calls; the values returned, in order. *)
Fixpoint fetchAll (urls : list string) (c : t) : list value * t :=
  match urls with
  | [] => ([], c)
  | u :: r =>
      let '(v, c1) := fetchDownloadCount u c in
      let '(vs, c2) := fetchAll r c1 in
      (v :: vs, c2)
  end.

End Net.

Definition clearCache (c : t) : t := {| cache := ∅; requests := requests c |}.

(** A release list read off a JSON value: release objects, each with
    assets that carry an integer [download_count] or none. *)
Definition asset_ok (asset : value) : Prop :=
  exists fields, asset = VObj fields /\
    (JS.assoc "download_count" fields = VUndefined \/
     exists n, JS.assoc "download_count" fields = VNum n).

Definition asset_count (asset : value) : Z :=
  match asset with
  | VObj fields =>
      match JS.assoc "download_count" fields with
      | VNum n => n
      | _ => 0
      end
  | _ => 0
  end.

Definition release_ok (release : value) : Prop :=
  exists fields, release = VObj fields /\
    match JS.assoc "assets" fields with
    | VArr l => Forall asset_ok l
    | _ => True
    end.

Definition release_count (release : value) : Z :=
  match release with
  | VObj fields =>
      match JS.assoc "assets" fields with
      | VArr l => foldr Z.add 0 (asset_count <$> l)
      | _ => 0
      end
  | _ => 0
  end.

Definition sum_downloads (releases : list value) : Z :=
  foldr Z.add 0 (release_count <$> releases).

(** The sum of the magnitudes of the counts of a release list. While it
    is at most 2^53, every sum of counts is an integer that a binary64
    number holds. *)
Definition release_size (release : value) : Z :=
  match release with
  | VObj fields =>
      match JS.assoc "assets" fields with
      | VArr l => foldr Z.add 0 ((fun a => Z.abs (asset_count a)) <$> l)
      | _ => 0
      end
  | _ => 0
  end.

Definition size_downloads (releases : list value) : Z :=
  foldr Z.add 0 (release_size <$> releases).

(** Every asset of every release has a count that is not negative. *)
Definition counts_nonneg (releases : list value) : Prop :=
  Forall (fun release =>
    match release with
    | VObj fields =>
        match JS.assoc "assets" fields with
        | VArr l => Forall (fun a => 0 <= asset_count a) l
        | _ => True
        end
    | _ => True
    end) releases.

End DownloadCounter.

(** ** Set and URLSearchParams *)

Module JSSet.

(** A [Set] of values: its elements, in insertion order. *)
Definition has (s : list value) (v : value) : bool := bool_decide (v ∈ s).

Definition add (s : list value) (v : value) : list value :=
  if has s v then s else s ++ [v].

Definition delete (s : list value) (v : value) : list value :=
  filter (fun x : value => x ≠ v) s.

(** [l.forEach(v => s.add(v))] *)
Definition addAll (s : list value) (l : list value) : list value :=
  foldl add s l.

End JSSet.

Module Params.

(** The name-value pairs of a query string, in order. The query string
    written by [toString] is read back by the constructor as the same
    pairs, so the page's location is kept as the pairs themselves. *)
Definition t := list (string * string).

(** [params.get(k)]: the first value under [k], or [null]. *)
Fixpoint get (params : t) (k : string) : option string :=
  match params with
  | [] => None
  | (k', v) :: r => if String.eqb k k' then Some v else get r k
  end.

(** [params.set(k, v)]: the first pair under [k] takes the value and the
    other pairs under [k] go; without such a pair, a new one is appended. *)
Fixpoint set (params : t) (k v : string) : t :=
  match params with
  | [] => [(k, v)]
  | (k', v') :: r =>
      if String.eqb k k'
      then (k, v) :: filter (fun p : string * string => p.1 ≠ k) r
      else (k', v') :: set r k v
  end.

(** A string or [null] used as a condition. *)
Definition truthy (o : option string) : bool :=
  match o with
  | Some s => negb (String.eqb s "")
  | None => false
  end.

End Params.

(** ** RepositoryLoader *)

(** One entry of the array [Promise.allSettled] resolves to. *)
Inductive settled :=
| Fulfilled (v : value)
| Failed (reason : exn).

(** [l.filter(f)] with a callback that can throw *)
Fixpoint filterM {A : Type} (f : A -> result bool) (l : list A) : result (list A) :=
  match l with
  | [] => Ok []
  | x :: r =>
      keep ← f x;
      rest ← filterM f r;
      Ok (if (keep : bool) then x :: rest else rest)
  end.

Module RepositoryLoader.

(** The loader, with the parts of the page it reads and writes: the value
    of the search box, the query parameters and the fragment
    ([window.location.hash], empty or starting with #) of the location, and
    the sources reported through [showError]. *)
Record t := mk {
  packages : list value;
  filteredPackages : list value;
  allTags : list value;
  selectedTags : list value;
  searchInput : string;
  search : Params.t;
  hash : string;
  errors : list string
}.

Definition new : t :=
  {| packages := []; filteredPackages := []; allTags := []; selectedTags := [];
     searchInput := ""; search := []; hash := ""; errors := [] |}.

Definition with_packages (st : t) (l : list value) : t :=
  {| packages := l; filteredPackages := filteredPackages st;
     allTags := allTags st; selectedTags := selectedTags st;
     searchInput := searchInput st; search := search st; hash := hash st;
     errors := errors st |}.

Definition with_filteredPackages (st : t) (l : list value) : t :=
  {| packages := packages st; filteredPackages := l;
     allTags := allTags st; selectedTags := selectedTags st;
     searchInput := searchInput st; search := search st; hash := hash st;
     errors := errors st |}.

Definition with_allTags (st : t) (l : list value) : t :=
  {| packages := packages st; filteredPackages := filteredPackages st;
     allTags := l; selectedTags := selectedTags st;
     searchInput := searchInput st; search := search st; hash := hash st;
     errors := errors st |}.

Definition with_selectedTags (st : t) (l : list value) : t :=
  {| packages := packages st; filteredPackages := filteredPackages st;
     allTags := allTags st; selectedTags := l;
     searchInput := searchInput st; search := search st; hash := hash st;
     errors := errors st |}.

Definition with_searchInput (st : t) (q : string) : t :=
  {| packages := packages st; filteredPackages := filteredPackages st;
     allTags := allTags st; selectedTags := selectedTags st;
     searchInput := q; search := search st; hash := hash st;
     errors := errors st |}.

(** [window.history.pushState({}, '', url)] for a URL made of the path
    and of the parameters: the fragment goes. *)
Definition pushState (st : t) (params : Params.t) : t :=
  {| packages := packages st; filteredPackages := filteredPackages st;
     allTags := allTags st; selectedTags := selectedTags st;
     searchInput := searchInput st; search := params; hash := "";
     errors := errors st |}.

Definition showError (st : t) (repoUrl : string) : t :=
  {| packages := packages st; filteredPackages := filteredPackages st;
     allTags := allTags st; selectedTags := selectedTags st;
     searchInput := searchInput st; search := search st; hash := hash st;
     errors := errors st ++ [repoUrl] |}.

(** *** convertToRawUrl *)

(** The longest prefix without a slash, and what follows it. *)
Fixpoint span_segment (s : string) : string * string :=
  match s with
  | EmptyString => (EmptyString, EmptyString)
  | String c r =>
      if Ascii.eqb c "/"%char then (EmptyString, s)
      else let '(seg, rest) := span_segment r in (String c seg, rest)
  end.

Fixpoint strip_prefix (p s : string) : option string :=
  match p, s with
  | EmptyString, _ => Some s
  | String a p', String b s' => if Ascii.eqb a b then strip_prefix p' s' else None
  | String _ _, EmptyString => None
  end.

(** A match of [/github\.com\/([^\/]+)\/([^\/]+)/] that starts at the
    head of [s]: both groups are greedy and cannot give a slash back. *)
Definition match_here (s : string) : option (string * string) :=
  match strip_prefix "github.com/" s with
  | Some r =>
      let '(owner, r1) := span_segment r in
      match owner, r1 with
      | String _ _, String _ r2 =>
          let '(repo, _) := span_segment r2 in
          match repo with
          | String _ _ => Some (owner, repo)
          | EmptyString => None
          end
      | _, _ => None
      end
  | None => None
  end.

(** [url.match(githubPattern)]: the leftmost match. *)
Fixpoint match_github (s : string) : option (string * string) :=
  match match_here s with
  | Some m => Some m
  | None =>
      match s with
      | EmptyString => None
      | String _ r => match_github r
      end
  end.

(** [repo.replace(/\.git$/, '')] *)
Fixpoint strip_git (s : string) : string :=
  match s with
  | EmptyString => EmptyString
  | String c r => if String.eqb s ".git" then EmptyString else String c (strip_git r)
  end.

Definition convertToRawUrl (url : string) : string :=
  if Str.includes url "raw.githubusercontent.com" then url
  else match match_github url with
       | Some (owner, repo) =>
           "https://raw.githubusercontent.com/" +:+ owner +:+ "/"
             +:+ strip_git repo +:+ "/main"
       | None => url
       end.

Definition packageUrl (repoUrl : string) : string :=
  convertToRawUrl repoUrl +:+ "/package.json".

Section Net.

(** The answer of the network to the request of a manifest. *)
Variable net : string -> response.

(** *** loadManifest *)

(** The [try] block: the manifest, and the tags to add to [allTags]. *)
Definition try_loadManifest (repoUrl : string) : result (value * list value) :=
  match net (packageUrl repoUrl) with
  | Rejected => Throw NetworkFailure
  | Response ok body =>
      if negb ok then Throw HttpError
      else match body with
           | None => Throw SyntaxError
           | Some manifest =>
               _ ← JS.get manifest "name";
               keywords ← JS.get manifest "keywords";
               old_tags ← JS.get manifest "tags";
               let tags := JS.or keywords old_tags in
               Ok (manifest,
                   if JS.truthy tags && JS.isArray tags then
                     match tags with VArr l => l | _ => [] end
                   else [])
           end
  end.

(** What the call does once its request is answered: everything it
    changes (the tags or the error shown) happens at that one moment. *)
Definition loadManifest (repoUrl : string) (st : t) : value * t :=
  match try_loadManifest repoUrl with
  | Ok (manifest, tags) =>
      (manifest, with_allTags st (JSSet.addAll (allTags st) tags))
  | Throw _ => (VNull, showError st repoUrl)
  end.

(** The value the promise of a source is fulfilled with, and the tags
    its call adds. *)
Definition fulfilled (repoUrl : string) : value :=
  match try_loadManifest repoUrl with
  | Ok (manifest, _) => manifest
  | Throw _ => VNull
  end.

Definition new_tags (repoUrl : string) : list value :=
  match try_loadManifest repoUrl with
  | Ok (_, tags) => tags
  | Throw _ => []
  end.

(** *** loadManifests *)

(** The request of source [i] is answered: its call runs to its end and
    its promise is fulfilled. *)
Definition complete (repositories : list string)
    (acc : list (option settled) * t) (i : nat) : list (option settled) * t :=
  match repositories !! i with
  | Some repoUrl =>
      let '(v, st) := loadManifest repoUrl acc.2 in
      (<[i := Some (Fulfilled v)]> acc.1, st)
  | None => acc
  end.

Definition keep (r : settled) : bool :=
  match r with
  | Fulfilled v => JS.truthy v
  | Failed _ => false
  end.

Definition settled_value (r : settled) : value :=
  match r with
  | Fulfilled v => v
  | Failed _ => VUndefined
  end.

(** All the calls are started, in the order of the sources; the
    requests are answered in the order [answered] (the indices of the
    sources). [Promise.allSettled] resolves once every promise is
    settled ([None] otherwise), with the results in the order of the
    sources. *)
Definition loadManifests (repositories : list string) (answered : list nat)
    (st : t) : option t :=
  let '(slots, st1) :=
    foldl (complete repositories)
          (replicate (length repositories) None, st) answered in
  results ← mapM id slots;
  Some (with_packages st1 (settled_value <$> List.filter keep results)).

End Net.

(** The manifest a source contributes to the page, if any: its request
    is answered with a success status and a JSON body, and the parsed
    body is a value that counts as true (any object does; [null] does
    not). *)
Definition loaded (net : string -> response) (repoUrl : string) : option value :=
  match net (packageUrl repoUrl) with
  | Response true (Some manifest) =>
      if JS.truthy manifest then Some manifest else None
  | _ => None
  end.

(** The tag list of a package: [keywords] when given, else [tags], when
    that is an array. *)
Definition tag_list (pkg : value) : list value :=
  match pkg with
  | VObj fields =>
      match JS.or (JS.assoc "keywords" fields) (JS.assoc "tags" fields) with
      | VArr l => l
      | _ => []
      end
  | _ => []
  end.

(** *** applyFilters *)

(** The three constants that both [applyFilters] and [createPackageCard]
    compute first (to "support both old and new formats"); the two
    methods differ in the text that stands for a missing author. *)
Record view := mk_view {
  displayName : value;
  authorName : value;
  tags : value
}.

Definition normalize (noAuthor : string) (pkg : value) : result view :=
  shown ← JS.get pkg "displayName";
  name ← JS.get pkg "name";
  author ← JS.get pkg "author";
  author_name ← JS.get_opt author "name";
  keywords ← JS.get pkg "keywords";
  old_tags ← JS.get pkg "tags";
  Ok {| displayName := JS.or shown name;
        authorName := JS.or (JS.or author_name author) (VStr noAuthor);
        tags := JS.or (JS.or keywords old_tags) (VArr []) |}.

(** The callback of [this.packages.filter] for one package. *)
Definition matches (searchTerm : string) (selected : list value) (pkg : value)
  : result bool :=
  f ← normalize "" pkg;
  matchesSearch ←
    (if String.eqb searchTerm "" then Ok true
     else
       name ← JS.get pkg "name";
       n ← JS.toLowerCase name;
       if Str.includes n searchTerm then Ok true
       else
         d ← JS.toLowerCase (displayName f);
         if Str.includes d searchTerm then Ok true
         else
           description ← JS.get pkg "description";
           ds ← JS.toLowerCase description;
           if Str.includes ds searchTerm then Ok true
           else
             a ← JS.toLowerCase (authorName f);
             Ok (Str.includes a searchTerm));
  matchesTags ←
    (match selected with
     | [] => Ok true
     | _ =>
         if JS.truthy (tags f) then
           match tags f with
           | VArr l => Ok (existsb (JSSet.has selected) l)
           | _ => Throw TypeError
           end
         else Ok false
     end);
  Ok (matchesSearch && matchesTags).

(** The answer of the callback, [false] when it throws. *)
Definition matchb (query : string) (selected : list value) (pkg : value) : bool :=
  match matches (Str.toLowerCase query) selected pkg with
  | Ok b => b
  | Throw _ => false
  end.

Definition applyFilters (st : t) : result t :=
  let searchTerm := Str.toLowerCase (searchInput st) in
  kept ← filterM (matches searchTerm (selectedTags st)) (packages st);
  Ok (with_filteredPackages st kept).

(** *** createPackageCard *)

(** [pkg.name.toLowerCase().replace(/[^a-z0-9]+/g, '-')] *)
Definition cardId (pkg : value) : result string :=
  name ← JS.get pkg "name";
  lowered ← JS.toLowerCase name;
  Ok (Str.replace_runs false lowered).

(** What the card shows of the manifest. The method fails only where
    this does: the download count comes from the counter, whose call
    catches what it throws, and the rest builds the element from template
    strings, which print any value. *)
Record card := mk_card {
  id : string;
  shown : view;
  status : value
}.

Definition createPackageCard (pkg : value) : result card :=
  cardId ← cardId pkg;
  f ← normalize "Unknown" pkg;
  pkg_status ← JS.get pkg "status";
  Ok {| id := cardId; shown := f;
        status := JS.or pkg_status (VStr "unknown") |}.

(** *** updateURL and loadFromURL *)

Definition updateURL (st : t) : t :=
  let params : Params.t := [] in
  let params :=
    if negb (String.eqb (Str.trim (searchInput st)) "")
    then Params.set params "search" (Str.trim (searchInput st))
    else params in
  let params :=
    if (0 <? length (selectedTags st))%nat
    then Params.set params "tags" (JS.join (JS.sort (selectedTags st)))
    else params in
  pushState st params.

(** [s.substring(1)] *)
Definition substring1 (s : string) : string :=
  match s with
  | EmptyString => EmptyString
  | String _ r => r
  end.

(** [tagArray.forEach(tag => { if (allTags.has(tag)) selectedTags.add(tag) })] *)
Definition selectKnown (all : list value) (selected : list value)
    (tagArray : list string) : list value :=
  foldl (fun sel tag =>
           if JSSet.has all (VStr tag) then JSSet.add sel (VStr tag) else sel)
        selected tagArray.

Definition loadFromURL (st : t) : result t :=
  let params := search st in
  let fragment := substring1 (hash st) in
  let st := with_searchInput (with_selectedTags st []) "" in
  if negb (String.eqb fragment "") && bool_decide (params = []) then
    kept ← filterM (fun pkg =>
                      cardId ← cardId pkg;
                      Ok (String.eqb cardId fragment))
                   (packages st);
    Ok (with_filteredPackages st kept)
  else
    let searchQuery :=
      if Params.truthy (Params.get params "search")
      then Params.get params "search" else Params.get params "q" in
    let st :=
      match searchQuery with
      | Some q => if Params.truthy searchQuery then with_searchInput st q else st
      | None => st
      end in
    let tags := Params.get params "tags" in
    let st :=
      match tags with
      | Some joined =>
          if Params.truthy tags then
            let tagArray :=
              List.filter (fun t => negb (String.eqb t ""))
                          (Str.trim <$> Str.split joined) in
            with_selectedTags st (selectKnown (allTags st) (selectedTags st) tagArray)
          else st
      | None => st
      end in
    if Params.truthy searchQuery || Params.truthy tags then applyFilters st
    else Ok (with_filteredPackages st (packages st)).

(** The state [loadFromURL] filters after it has read the search term [q]
    and the tags [selected] from the parameters. *)
Definition decoded (st : t) (params : Params.t) (q : string)
    (selected : list value) : t :=
  with_selectedTags
    (with_searchInput
       (with_searchInput (with_selectedTags (pushState st params) []) "") q)
    selected.

(** *** The tag list and the handlers of the filter panel *)

(** The tags of the buttons made by [buildTagsList], in their order. *)
Definition buildTagsList (st : t) : list value := JS.sort (allTags st).

Definition toggleTag (tag : value) (st : t) : result t :=
  let st :=
    if JSSet.has (selectedTags st) tag
    then with_selectedTags st (JSSet.delete (selectedTags st) tag)
    else with_selectedTags st (JSSet.add (selectedTags st) tag) in
  applyFilters (updateURL st).

Definition clearFilters (st : t) : t :=
  let st := with_searchInput (with_selectedTags st []) "" in
  with_filteredPackages (pushState st []) (packages st).

Definition handleSearch (st : t) : result t :=
  applyFilters (updateURL st).

(** The user follows a link to the page or moves in the history: the
    location changes. *)
Definition navigate (params : Params.t) (fragment : string) (st : t) : t :=
  {| packages := packages st; filteredPackages := filteredPackages st;
     allTags := allTags st; selectedTags := selectedTags st;
     searchInput := searchInput st; search := params; hash := fragment;
     errors := errors st |}.

(** The user types in the search box. *)
Definition type (q : string) (st : t) : t := with_searchInput st q.

(** A tag that the URL can carry: a string that is not empty, has no
    comma and no white space at its ends. *)
Definition plain_tag (v : value) : Prop :=
  exists s, v = VStr s /\ s <> "" /\ Str.no_comma s = true /\ Str.trim s = s.

(** One operation of a session. *)
Inductive step (net : string -> response) : t -> t -> Prop :=
| step_loadManifests repositories answered st st' :
    loadManifests net repositories answered st = Some st' -> step net st st'
| step_loadFromURL st st' :
    loadFromURL st = Ok st' -> step net st st'
| step_updateURL st :
    step net st (updateURL st)
| step_applyFilters st st' :
    applyFilters st = Ok st' -> step net st st'
| step_toggleTag tag st st' :
    toggleTag tag st = Ok st' -> step net st st'
| step_clearFilters st :
    step net st (clearFilters st)
| step_handleSearch st st' :
    handleSearch st = Ok st' -> step net st st'
| step_navigate params fragment st :
    step net st (navigate params fragment st)
| step_type q st :
    step net st (type q st).

(** *** sharePackage *)

(** The URL copied to the clipboard for a card. *)
Definition sharePackage (origin pathname packageId : string) : string :=
  origin +:+ pathname +:+ "#" +:+ packageId.

(** The page opened at that URL: no query parameter, and the fragment as
    [window.location.hash] gives it (empty when nothing follows the #). *)
Definition openShared (packageId : string) (st : t) : t :=
  navigate []
    (match packageId with
     | EmptyString => EmptyString
     | String _ _ => "#" +:+ packageId
     end) st.

(** *** loadRepositories *)

(** What [loadFromURL] has written when its filter starts: the search box
    and the selected tags as the URL gives them. The loader is left in
    this state when the filter throws. *)
Definition urlState (st : t) : t :=
  let params := search st in
  let fragment := substring1 (hash st) in
  let st := with_searchInput (with_selectedTags st []) "" in
  if negb (String.eqb fragment "") && bool_decide (params = []) then st
  else
    let searchQuery :=
      if Params.truthy (Params.get params "search")
      then Params.get params "search" else Params.get params "q" in
    let st :=
      match searchQuery with
      | Some q => if Params.truthy searchQuery then with_searchInput st q else st
      | None => st
      end in
    let tags := Params.get params "tags" in
    match tags with
    | Some joined =>
        if Params.truthy tags then
          let tagArray :=
            List.filter (fun t => negb (String.eqb t ""))
                        (Str.trim <$> Str.split joined) in
          with_selectedTags st (selectKnown (allTags st) (selectedTags st) tagArray)
        else st
    | None => st
    end.

(** What the request of [data/repository.json] gives: it is rejected, its
    status is not a success, its body is not JSON, its JSON has no array
    under [repositories], or it lists the sources (strings, as
    [loadManifests] takes them). *)
Inductive listing :=
| ListingRejected
| ListingStatus
| ListingNotJSON
| ListingNoArray
| Listing (repositories : list string).

Definition listPath : string := "data/repository.json".

(** The [try] block loads the manifests, shows all the packages and reads
    the URL; the [catch] block reports whatever was thrown: the error is
    recorded under the path of the list, as the failure of a manifest is
    under its source. [answered] is the order in which the requests of the
    manifests are answered. *)
Definition loadRepositories (net : string -> response) (data : listing)
    (answered : list nat) (st : t) : option t :=
  match data with
  | Listing repositories =>
      st1 ← loadManifests net repositories answered st;
      let st2 := with_filteredPackages st1 (packages st1) in
      Some (match loadFromURL st2 with
            | Ok st3 => st3
            | Throw _ => showError (urlState st2) listPath
            end)
  | _ => Some (showError st listPath)
  end.

(** A source whose call of [loadManifest] ends in its [catch] block. *)
Definition fails (net : string -> response) (repoUrl : string) : bool :=
  match try_loadManifest net repoUrl with
  | Ok _ => false
  | Throw _ => true
  end.

(** *** The page *)

(** What happens on the page: [init] loads the repositories, and the
    listeners of [setupEventListeners] and the tag buttons of
    [buildTagsList] run the handlers. A search is run on the text in the
    search box, a tag button exists for a tag of the index only, and
    [popstate] comes with the location the history moved to. *)
Inductive page (net : string -> response) : t -> t -> Prop :=
| page_init data answered st st' :
    loadRepositories net data answered st = Some st' -> page net st st'
| page_search q st st' :
    handleSearch (type q st) = Ok st' -> page net st st'
| page_tag tag st st' :
    tag ∈ allTags st -> toggleTag tag st = Ok st' -> page net st st'
| page_clear st :
    page net st (clearFilters st)
| page_popstate params fragment st st' :
    loadFromURL (navigate params fragment st) = Ok st' -> page net st st'.

End RepositoryLoader.

(** ** DownloadCounter.parseReleaseUrl *)

Module ReleaseUrl.
Import RepositoryLoader.

(** A match of [/github\.com\/repos\/([^\/]+)\/([^\/]+)\/releases/] that
    starts at the head of [s]: both groups are greedy and cannot give a
    character back, since the next one must be a slash. *)
Definition match_here (s : string) : option (string * string) :=
  match strip_prefix "github.com/repos/" s with
  | Some r =>
      let '(owner, r1) := span_segment r in
      match owner, r1 with
      | String _ _, String _ r2 =>
          let '(repo, r3) := span_segment r2 in
          match repo with
          | String _ _ =>
              if Str.startsWith r3 "/releases" then Some (owner, repo) else None
          | EmptyString => None
          end
      | _, _ => None
      end
  | None => None
  end.

(** [releaseUrl.match(regex)]: the owner and the repository of the leftmost
    match, or [null]. *)
Fixpoint parseReleaseUrl (releaseUrl : string) : option (string * string) :=
  match match_here releaseUrl with
  | Some m => Some m
  | None =>
      match releaseUrl with
      | EmptyString => None
      | String _ r => parseReleaseUrl r
      end
  end.

End ReleaseUrl.

(** ** The Package of the data model

    The record a manifest stands for when the filter reads it: the text
    fields with their fallbacks, and the tag list. A manifest whose fields
    have other types (a name that is not a string, tags that are not an
    array) stands for no Package. *)

Module Package.

Record t := mk {
  name : string;
  displayName : string;
  author : string;
  description : string;
  tags : list value
}.

Definition text (v : value) : option string :=
  match v with
  | VStr s => Some s
  | _ => None
  end.

(** The text of a field, or the fallback when the field is absent (or
    empty, null, false or zero). *)
Definition text_or (v : value) (fallback : string) : option string :=
  if JS.truthy v then text v else Some fallback.

(** The author: a non-empty string, or an object with a [name]. *)
Definition author_of (v : value) : option string :=
  match v with
  | VObj fields =>
      if JS.truthy (JS.assoc "name" fields) then text (JS.assoc "name" fields)
      else None
  | _ => text_or v ""
  end.

(** The tag list: [keywords] when given, else [tags], else none. *)
Definition tags_of (keywords old_tags : value) : option (list value) :=
  let v := if JS.truthy keywords then keywords else old_tags in
  if JS.truthy v then
    match v with
    | VArr l => Some l
    | _ => None
    end
  else Some [].

Definition of_manifest (pkg : value) : option t :=
  match pkg with
  | VObj fields =>
      name ← text (JS.assoc "name" fields);
      displayName ← text_or (JS.assoc "displayName" fields) name;
      author ← author_of (JS.assoc "author" fields);
      description ← text (JS.assoc "description" fields);
      tags ← tags_of (JS.assoc "keywords" fields) (JS.assoc "tags" fields);
      Some {| name := name; displayName := displayName; author := author;
              description := description; tags := tags |}
  | _ => None
  end.

Definition name_of (pkg : value) : option string :=
  match pkg with
  | VObj fields => text (JS.assoc "name" fields)
  | _ => None
  end.

Definition slug_of (pkg : value) : option string :=
  Str.slug <$> name_of pkg.

Definition has_slug (fragment : string) (pkg : value) : bool :=
  bool_decide (slug_of pkg = Some fragment).

(** The match predicate of the filter, in the words of the
    specification. *)
Definition matches_spec (query : string) (selected : list value) (p : t) : Prop :=
  (query = "" \/
   Str.ci_substring query (name p) \/
   Str.ci_substring query (displayName p) \/
   Str.ci_substring query (description p) \/
   Str.ci_substring query (author p)) /\
  (selected = [] \/ exists tag, tag ∈ tags p /\ tag ∈ selected).

End Package.

(** ** Sample data

    The release lists, manifests, sources and networks that the properties
    below are evaluated on. *)

Module Sample.

(** The release list of the specification: two releases, the first with
    assets downloaded 3 and 2 times, the second without assets. *)
Definition two_releases : list value :=
  [ VObj [("assets", VArr [VObj [("download_count", VNum 3)];
                           VObj [("download_count", VNum 2)]])];
    VObj [("assets", VArr [])] ].

(** One release whose counts add up to 2^53 + 1, which no binary64
    number holds. *)
Definition big_releases : list value :=
  [ VObj [("assets", VArr [VObj [("download_count", VNum 9007199254740991)];
                           VObj [("download_count", VNum 1)];
                           VObj [("download_count", VNum 1)]])] ].

(** A network that answers every request with the same JSON body. *)
Definition serves (body : value) : nat -> string -> response :=
  fun _ _ => Response true (Some body).

(** A network on which the first request is rejected and the later ones
    are answered with one asset downloaded 5 times. *)
Definition flaky : nat -> string -> response :=
  fun n _ =>
    match n with
    | O => Rejected
    | S _ => Response true
               (Some (VArr [VObj [("assets",
                                   VArr [VObj [("download_count", VNum 5)]])]]))
    end.

Definition pkg1 : value :=
  VObj [("name", VStr "My Package 1");
        ("description", VStr "First package");
        ("author", VObj [("name", VStr "Ann")]);
        ("keywords", VArr [VStr "b"; VStr "a"]);
        ("tags", VArr [VStr "old"])].

(** A manifest in the old format, without author. *)
Definition pkg2 : value :=
  VObj [("name", VStr "other");
        ("displayName", VStr "Other Tool");
        ("description", VStr "Second package");
        ("tags", VArr [VStr "a"; VStr "c,d"])].

(** A manifest whose name has the slug of [pkg1]. *)
Definition pkg3 : value :=
  VObj [("name", VStr "my package-1");
        ("description", VStr "Twin");
        ("author", VStr "Bob")].

Definition repositories : list string :=
  [ "https://github.com/forge/one";
    "https://github.com/forge/two.git";
    "https://raw.githubusercontent.com/forge/three/main";
    "https://github.com/forge/four";
    "https://example.org/five" ].

(** The second source is unreachable and the fourth answers 404. *)
Definition net (url : string) : response :=
  if String.eqb url "https://raw.githubusercontent.com/forge/one/main/package.json"
  then Response true (Some pkg1)
  else if String.eqb url "https://raw.githubusercontent.com/forge/three/main/package.json"
  then Response true (Some pkg2)
  else if String.eqb url "https://raw.githubusercontent.com/forge/four/main/package.json"
  then Response false None
  else if String.eqb url "https://example.org/five/package.json"
  then Response true (Some pkg3)
  else Rejected.

(** The loader after the batch, when the requests have been answered in
    the order 4, 1, 5, 3, 2 of the sources. *)
Definition answered : list nat := [3; 0; 4; 2; 1]%nat.

Definition after_load : RepositoryLoader.t :=
  {| RepositoryLoader.packages := [pkg1; pkg2; pkg3];
     RepositoryLoader.filteredPackages := [];
     RepositoryLoader.allTags := [VStr "b"; VStr "a"; VStr "c,d"];
     RepositoryLoader.selectedTags := [];
     RepositoryLoader.searchInput := "";
     RepositoryLoader.search := [];
     RepositoryLoader.hash := "";
     RepositoryLoader.errors :=
       ["https://github.com/forge/four"; "https://github.com/forge/two.git"] |}.

(** The page once the three manifests are loaded and shown. *)
Definition page : RepositoryLoader.t :=
  {| RepositoryLoader.packages := [pkg1; pkg2; pkg3];
     RepositoryLoader.filteredPackages := [pkg1; pkg2; pkg3];
     RepositoryLoader.allTags := [VStr "b"; VStr "a"; VStr "c,d"];
     RepositoryLoader.selectedTags := [];
     RepositoryLoader.searchInput := "";
     RepositoryLoader.search := [];
     RepositoryLoader.hash := "";
     RepositoryLoader.errors := [] |}.

(** The user has typed a search term and selected tags. *)
Definition searching (q : string) (selected : list value) : RepositoryLoader.t :=
  RepositoryLoader.with_selectedTags
    (RepositoryLoader.with_searchInput page q) selected.

(** The user has followed a link with a fragment. *)
Definition linked (fragment : string) : RepositoryLoader.t :=
  RepositoryLoader.navigate [] fragment page.

End Sample.

(** * Properties *)

(** ** Sanity checks of the string and value primitives *)

Example toLowerCase_ex : Str.toLowerCase "My Package 1" = "my package 1".
Proof. reflexivity. Qed.

Example trim_ex : Str.trim "  foo bar   " = "foo bar".
Proof. reflexivity. Qed.

Example split_ex : Str.split "a,,b c," = ["a"; ""; "b c"; ""].
Proof. reflexivity. Qed.

Example join_ex : Str.join ["a"; "b"; "c"] = "a,b,c".
Proof. reflexivity. Qed.

Example replace_runs_ex : Str.replace_runs false "my  package--1!" = "my-package-1-".
Proof. reflexivity. Qed.

Example of_Z_ex : Str.of_Z 950 = "950" /\ Str.of_Z 0 = "0" /\ Str.of_Z (-12) = "-12".
Proof. repeat split; reflexivity. Qed.

Example add_rounds :
  JS.add (VNum 9007199254740991) (VNum 1) = VNum 9007199254740992 /\
  JS.add (VNum 9007199254740992) (VNum 1) = VNum 9007199254740992 /\
  JS.add (VNum 9007199254740992) (VNum 3) = VNum 9007199254740996.
Proof. split_and!; vm_compute; reflexivity. Qed.

Example add_ex :
  JS.add (VNum 3) (VNum 2) = VNum 5 /\
  JS.add (VNum 0) (VStr "5") = VStr "05" /\
  JS.add (VNum 1) (VBool true) = VNum 2 /\
  JS.add (VNum 1) (VArr [VNum 2; VNull; VStr "x"]) = VStr "12,,x".
Proof. repeat split; reflexivity. Qed.

(** Counts half way between two tenths: the quotient the engine holds can
    lie on either side (1.15 is held as a number below it, 1.25 exactly). *)
Example formatCount_ties :
  formatCount 1050 = "1.1K" /\
  formatCount 1150 = "1.1K" /\ formatCount 1250 = "1.3K" /\
  formatCount 999949 = "999.9K" /\ formatCount 999950 = "1000.0K" /\
  formatCount 1000000 = "1.0M".
Proof. repeat split; vm_compute; reflexivity. Qed.


(** ** formatCount *)

Section FormatCount.

Import Float.

Lemma round_half_even_near a b :
  0 < b -> - b <= 2 * (round_half_even a b * b - a) <= b.
Proof.
  intros Hb. unfold round_half_even.
  pose proof (Z.div_mod a b ltac:(lia)) as Hdm.
  pose proof (Z.mod_pos_bound a b Hb) as Hr.
  repeat case_match; rewrite ?Z.ltb_lt, ?Z.ltb_ge in *; nia.
Qed.

Lemma div_scale_ge p q :
  0 < q -> q <= p -> 52 - (Z.log2 p - Z.log2 q) <= scale (div p q).
Proof.
  intros Hq Hp. unfold div; simpl. case_match; lia.
Qed.

(** The tenths of a quotient [p / (20 * g)] differ from the exact
    [p / (2 * g)] by at most one half, once the scale is fine enough. *)
Lemma tenths_div_nearest p g :
  0 < g -> 20 * g <= p -> 10 * g < 2 ^ scale (div p (20 * g)) ->
  0 <= scale (div p (20 * g)) ->
  - g <= 2 * g * tenths (div p (20 * g)) - p <= g.
Proof.
  intros Hg Hp HD Hk. unfold tenths.
  set (x := div p (20 * g)) in *.
  assert (Hm : - (20 * g) <= 2 * (mant x * (20 * g) - p * 2 ^ scale x) <= 20 * g).
  { subst x. unfold div at 1 4. cbn [mant scale].
    apply round_half_even_near. lia. }
  set (D := 2 ^ scale x) in *.
  assert (HD2 : 2 ^ (scale x + 1) = 2 * D).
  { unfold D. rewrite Z.pow_add_r by lia. lia. }
  rewrite HD2.
  set (n := (20 * mant x + D) / (2 * D)).
  assert (Hn : 2 * D * n <= 20 * mant x + D < 2 * D * n + 2 * D).
  { pose proof (Z.div_mod (20 * mant x + D) (2 * D) ltac:(lia)) as Hdm.
    pose proof (Z.mod_pos_bound (20 * mant x + D) (2 * D) ltac:(lia)) as Hr.
    fold n in Hdm. lia. }
  generalize dependent (mant x). intros m Hm n Hn.
  split; nia.
Qed.

Lemma scale_bound p q lq b :
  0 < q -> q <= p -> p < 2 ^ b -> Z.log2 q = lq -> 0 <= lq -> lq + 53 - b <= 52 ->
  lq + 53 - b <= scale (div p q) /\ 2 ^ (lq + 53 - b) <= 2 ^ scale (div p q).
Proof.
  intros Hq Hp Hb Hlq H0 H1.
  assert (Hl : Z.log2 p < b) by (apply Z.log2_lt_pow2; lia).
  pose proof (div_scale_ge p q Hq Hp) as Hs.
  assert (lq + 53 - b <= scale (div p q)) by lia.
  split; [done|]. apply Z.pow_le_mono_r; [lia|done].
Qed.

(** C8: for a count below 2^53 (an integer the engine holds exactly),
    [formatCount] prints the count itself below 1000, the count divided
    by 1e3 and rounded to one decimal followed by K from 1000 up to
    1,000,000, and the count divided by 1e6 and rounded to one decimal
    followed by M from 1,000,000 on: the printed tenths [n] are an integer
    nearest to ten times the exact quotient. In particular 950, 1500 and
    2300000 give 950, 1.5K and 2.3M. *)
Theorem formatCount_rounds count :
  0 <= count < 2 ^ 53 ->
  (count < 1000 -> formatCount count = Str.of_Z count) /\
  (1000 <= count < 1000000 ->
     exists n, formatCount count = decimal1 n +:+ "K" /\
               - 50 <= 100 * n - count <= 50) /\
  (1000000 <= count ->
     exists n, formatCount count = decimal1 n +:+ "M" /\
               - 50000 <= 100000 * n - count <= 50000) /\
  formatCount 950 = "950" /\
  formatCount 1500 = "1.5K" /\
  formatCount 2300000 = "2.3M".
Proof.
  intros [H0 H53]. split_and!; [| | |vm_compute; reflexivity..]; unfold formatCount.
  - intros Hlt.
    destruct (1000000 <=? count) eqn:E1; [apply Z.leb_le in E1; lia|].
    destruct (1000 <=? count) eqn:E2; [apply Z.leb_le in E2; lia|]. done.
  - intros [Hge Hlt].
    destruct (1000000 <=? count) eqn:E1; [apply Z.leb_le in E1; lia|].
    destruct (1000 <=? count) eqn:E2; [|apply Z.leb_gt in E2; lia].
    exists (tenths (div count 1000)). split; [done|].
    change 1000 with (20 * 50) in *.
    destruct (scale_bound count (20 * 50) 9 20) as [Hs HD];
      [lia|lia|lia|reflexivity|lia|lia|].
    change (2 ^ (9 + 53 - 20)) with 4398046511104 in HD.
    pose proof (tenths_div_nearest count 50) as Hn. lia.
  - intros Hge.
    destruct (1000000 <=? count) eqn:E1; [|apply Z.leb_gt in E1; lia].
    exists (tenths (div count 1000000)). split; [done|].
    change 1000000 with (20 * 50000) in *.
    destruct (scale_bound count (20 * 50000) 19 53) as [Hs HD];
      [lia|lia|lia|reflexivity|lia|lia|].
    change (2 ^ (19 + 53 - 53)) with 524288 in HD.
    pose proof (tenths_div_nearest count 50000) as Hn. lia.
Qed.

Lemma formatCount_rounds_witness :
  (exists n, formatCount 123456 = decimal1 n +:+ "K" /\
             - 50 <= 100 * n - 123456 <= 50).
Proof.
  apply (formatCount_rounds 123456); [|lia].
  change (2 ^ 53) with 9007199254740992. lia.
Defined.

End FormatCount.

(** ** DownloadCounter.fetchDownloadCount *)

Module DownloadCounterFacts.
Import DownloadCounter.

Lemma nearest_exact z : Z.abs z <= 2 ^ 53 -> Float.nearest z = z.
Proof.
  intros H. unfold Float.nearest.
  destruct (Z.leb_spec (Z.abs z) (2 ^ 53)); [done|lia].
Qed.

Lemma nearest_nonneg z : 0 <= z -> 0 <= Float.nearest z.
Proof.
  intros H. unfold Float.nearest.
  destruct (Z.leb_spec (Z.abs z) (2 ^ 53)); [done|].
  set (e := Z.log2 (Z.abs z) - 52).
  assert (He : 0 < 2 ^ e).
  { apply Z.pow_pos_nonneg; [lia|]. unfold e.
    assert (53 <= Z.log2 (Z.abs z)); [|lia].
    apply Z.log2_le_pow2; lia. }
  apply Z.mul_nonneg_nonneg; [|lia].
  unfold Float.round_half_even.
  assert (0 <= z / 2 ^ e) by (apply Z.div_pos; lia).
  repeat case_match; lia.
Qed.

(** [totalDownloads += asset.download_count || 0] on a number. *)
Lemma add_asset_count t asset :
  asset_ok asset ->
  add_asset (VNum t) asset = Ok (VNum (Float.nearest (t + asset_count asset))).
Proof.
  intros (fields & -> & [Hu | [n Hn]]); unfold add_asset; simpl.
  - rewrite Hu. reflexivity.
  - rewrite Hn. cbn -[Float.nearest]. unfold JS.or; simpl.
    destruct (Z.eqb_spec n 0) as [->|Hne]; reflexivity.
Qed.

Lemma fold_assets t assets :
  Forall asset_ok assets ->
  Z.abs t + foldr Z.add 0 ((fun a => Z.abs (asset_count a)) <$> assets)
  <= 2 ^ 53 ->
  foldM add_asset (VNum t) assets
  = Ok (VNum (t + foldr Z.add 0 (asset_count <$> assets))).
Proof.
  intros H. revert t. induction H as [|a l Ha _ IH]; intros t Hsize.
  - simpl. do 2 f_equal. lia.
  - rewrite !fmap_cons in *. cbn [foldr foldM] in *.
    assert (0 <= foldr Z.add 0 ((fun a => Z.abs (asset_count a)) <$> l)).
    { clear. induction l as [|x l IHl]; [simpl; lia|].
      rewrite fmap_cons. cbn [foldr]. lia. }
    rewrite (add_asset_count _ _ Ha). cbn [mbind result_bind].
    rewrite nearest_exact by lia.
    rewrite IH by lia. do 2 f_equal. lia.
Qed.

Lemma release_size_nonneg release : 0 <= release_size release.
Proof.
  destruct release; simpl; try lia.
  destruct (JS.assoc "assets" fields); try lia.
  induction elems as [|x l IHl]; [simpl; lia|].
  rewrite fmap_cons. cbn [foldr]. lia.
Qed.

Lemma size_downloads_nonneg releases : 0 <= size_downloads releases.
Proof.
  unfold size_downloads. induction releases as [|r l IH]; [simpl; lia|].
  rewrite fmap_cons. cbn [foldr]. pose proof (release_size_nonneg r). lia.
Qed.

Lemma add_release_count t release :
  release_ok release ->
  Z.abs t + release_size release <= 2 ^ 53 ->
  add_release (VNum t) release = Ok (VNum (t + release_count release)).
Proof.
  intros (fields & -> & H) Hsize. unfold add_release; simpl in *.
  destruct (JS.assoc "assets" fields) eqn:E; cbn;
    try (do 2 f_equal; lia); try (case_match; do 2 f_equal; lia).
  by apply fold_assets.
Qed.

Lemma release_count_size release :
  Z.abs (release_count release) <= release_size release.
Proof.
  destruct release; simpl; try lia.
  destruct (JS.assoc "assets" fields); try lia.
  induction elems as [|x l IHl]; [simpl; lia|].
  rewrite !fmap_cons. cbn [foldr]. lia.
Qed.

Lemma fold_releases t releases :
  Forall release_ok releases ->
  Z.abs t + size_downloads releases <= 2 ^ 53 ->
  foldM add_release (VNum t) releases
  = Ok (VNum (t + foldr Z.add 0 (release_count <$> releases))).
Proof.
  unfold size_downloads.
  intros H. revert t. induction H as [|r l Hr _ IH]; intros t Hsize.
  - simpl. do 2 f_equal. lia.
  - rewrite !fmap_cons in *. cbn [foldr foldM] in *.
    pose proof (size_downloads_nonneg l) as Hl. unfold size_downloads in Hl.
    pose proof (release_count_size r) as Hr'.
    pose proof (release_size_nonneg r) as Hr0.
    rewrite (add_release_count _ _ Hr) by lia. cbn [mbind result_bind].
    rewrite IH by lia. do 2 f_equal. lia.
Qed.

Lemma totalDownloads_sum releases :
  Forall release_ok releases ->
  size_downloads releases <= 2 ^ 53 ->
  totalDownloads (VArr releases) = Ok (VNum (sum_downloads releases)).
Proof.
  intros H Hsize. unfold totalDownloads, sum_downloads.
  by rewrite (fold_releases 0 _ H) by (simpl; lia).
Qed.

(** Whatever the size of the counts, the total of counts that are not
    negative is a number that is not negative. *)
Lemma fold_assets_nonneg t assets :
  0 <= t -> Forall asset_ok assets ->
  Forall (fun a => 0 <= asset_count a) assets ->
  exists n, foldM add_asset (VNum t) assets = Ok (VNum n) /\ 0 <= n.
Proof.
  intros Ht H. revert t Ht. induction H as [|a l Ha _ IH]; intros t Ht Hnn.
  - exists t. by split.
  - apply Forall_cons in Hnn as [Ha0 Hl]. cbn [foldM].
    rewrite (add_asset_count _ _ Ha). cbn [mbind result_bind].
    apply IH; [|done]. apply nearest_nonneg. lia.
Qed.

Lemma fold_releases_nonneg t releases :
  0 <= t -> Forall release_ok releases -> counts_nonneg releases ->
  exists n, foldM add_release (VNum t) releases = Ok (VNum n) /\ 0 <= n.
Proof.
  intros Ht H. revert t Ht. induction H as [|r l Hr _ IH]; intros t Ht Hnn.
  - exists t. by split.
  - apply Forall_cons in Hnn as [Hr0 Hl]. cbn [foldM].
    assert (exists n, add_release (VNum t) r = Ok (VNum n) /\ 0 <= n)
      as (n & -> & Hn).
    { destruct Hr as (fields & -> & Hok). unfold add_release; simpl in *.
      destruct (JS.assoc "assets" fields) eqn:E; cbn;
        try (by exists t); try (case_match; by exists t).
      by apply fold_assets_nonneg. }
    cbn [mbind result_bind]. by apply IH.
Qed.

Lemma totalDownloads_nonneg releases :
  Forall release_ok releases -> counts_nonneg releases ->
  exists n, totalDownloads (VArr releases) = Ok (VNum n) /\ 0 <= n.
Proof.
  intros H Hnn. unfold totalDownloads. by apply fold_releases_nonneg.
Qed.

Section Net.
Variable net : nat -> string -> response.

Lemma fetch_hit url c v :
  cache c !! url = Some v -> fetchDownloadCount net url c = (v, c).
Proof. intros H. unfold fetchDownloadCount. by rewrite H. Qed.

(** No call removes or changes an entry of the cache. *)
Lemma fetch_keeps url url' c v :
  cache c !! url = Some v ->
  cache (fetchDownloadCount net url' c).2 !! url = Some v.
Proof.
  intros H. unfold fetchDownloadCount.
  destruct (cache c !! url') eqn:E; [done|].
  destruct (try_fetch _ _ _); simpl; [|done].
  rewrite lookup_insert_ne; [done|]. intros ->. congruence.
Qed.

Lemma fetchAll_keeps urls url c v :
  cache c !! url = Some v ->
  cache (fetchAll net urls c).2 !! url = Some v.
Proof.
  revert c. induction urls as [|u r IH]; intros c H; simpl; [done|].
  pose proof (fetch_keeps url u c v H) as H1.
  destruct (fetchDownloadCount net u c) as [w c1]; simpl in *.
  specialize (IH c1 H1).
  destruct (fetchAll net r c1) as [vs c2]; simpl in *. done.
Qed.

(** C9, as the code has it: when the release list requested is an array
    of release objects, and the magnitudes of their counts add up to 2^53
    at most, the call resolves to the sum of the [download_count] fields
    of all assets of all releases; a release whose [assets] is missing or
    not an array and an asset without [download_count] add nothing. *)
Theorem fetchDownloadCount_sums url c releases :
  cache c !! url = None ->
  net (length (requests c)) url = Response true (Some (VArr releases)) ->
  Forall release_ok releases ->
  size_downloads releases <= 2 ^ 53 ->
  (fetchDownloadCount net url c).1 = VNum (sum_downloads releases).
Proof.
  intros Hc Hnet Hok Hsize. unfold fetchDownloadCount, try_fetch.
  rewrite Hc, Hnet. simpl negb. cbv iota.
  by rewrite (totalDownloads_sum _ Hok Hsize).
Qed.

(** C10: when the fetch for an uncached URL fails (the request is
    rejected, the status is not a success, or the body is not JSON),
    the call returns 0 and leaves the cache as it was, so that the next
    call for the URL sends the request again. *)
Theorem fetchDownloadCount_failure_not_cached url c :
  cache c !! url = None ->
  net (length (requests c)) url = Rejected \/
  (exists body, net (length (requests c)) url = Response false body) \/
  net (length (requests c)) url = Response true None ->
  let '(v, c1) := fetchDownloadCount net url c in
  v = VNum 0 /\ cache c1 = cache c /\ requests c1 = requests c ++ [url] /\
  requests (fetchDownloadCount net url c1).2 = requests c ++ [url; url].
Proof.
  intros Hc Hnet.
  assert (exists e, try_fetch net (length (requests c)) url = Throw e)
    as [e He].
  { unfold try_fetch. destruct Hnet as [-> | [[body ->] | ->]]; eauto. }
  unfold fetchDownloadCount at 1. rewrite Hc, He.
  split_and!; [reflexivity..|].
  unfold fetchDownloadCount. cbn [cache requests].
  rewrite Hc.
  destruct (try_fetch net (length (requests c ++ [url])) url); simpl;
    rewrite <- app_assoc; reflexivity.
Qed.

(** C5, as the code has it: when the first call for an uncached URL
    succeeds (its fetch does not fail), it sends one request and caches
    the total; from then on, whatever other calls are made, a call for
    the URL returns that same value and sends no request. The value is
    a number that is not negative when the response is a list of
    release objects whose counts are not negative. *)
Theorem fetchDownloadCount_cached_once url c total :
  cache c !! url = None ->
  try_fetch net (length (requests c)) url = Ok total ->
  let '(v1, c1) := fetchDownloadCount net url c in
  v1 = total /\ requests c1 = requests c ++ [url] /\
  (forall others,
      let c2 := (fetchAll net others c1).2 in
      fetchDownloadCount net url c2 = (v1, c2)) /\
  (forall releases,
      net (length (requests c)) url = Response true (Some (VArr releases)) ->
      Forall release_ok releases -> counts_nonneg releases ->
      exists n, v1 = VNum n /\ 0 <= n).
Proof.
  intros Hc Ht. unfold fetchDownloadCount at 1. rewrite Hc, Ht.
  split_and!; [reflexivity..| |].
  - intros others. apply fetch_hit, fetchAll_keeps.
    simpl. apply lookup_insert_eq.
  - intros releases Hnet Hok Hnn.
    destruct (totalDownloads_nonneg releases Hok Hnn) as (n & Hsum & Hn).
    exists n. split; [|done].
    unfold try_fetch in Ht. rewrite Hnet in Ht. cbn [negb] in Ht.
    congruence.
Qed.

End Net.

Import Sample.

Lemma two_releases_ok : Forall release_ok two_releases.
Proof.
  repeat constructor; eexists; (split; [reflexivity|]); simpl;
    repeat constructor; eexists; (split; [reflexivity|]); simpl; eauto.
Defined.

Lemma fetchDownloadCount_sums_witness :
  (fetchDownloadCount (serves (VArr two_releases)) "u" new).1 = VNum 5.
Proof.
  apply (fetchDownloadCount_sums (serves (VArr two_releases)) "u" new
           two_releases);
    [reflexivity|reflexivity|apply two_releases_ok|vm_compute; discriminate].
Defined.

(** C9 fails past 2^53: the counts 2^53 - 1, 1 and 1 are integers that
    the numbers of the page hold, their sum is not, and the call resolves
    to the number the last addition rounds to. *)
Lemma fetchDownloadCount_sum_rounds :
  Forall release_ok big_releases /\
  sum_downloads big_releases = 9007199254740993 /\
  (fetchDownloadCount (serves (VArr big_releases)) "u" new).1
  = VNum 9007199254740992 /\
  (fetchDownloadCount (serves (VArr big_releases)) "u" new).1
  <> VNum (sum_downloads big_releases).
Proof.
  split_and!.
  - repeat constructor; eexists; (split; [reflexivity|]); simpl;
      repeat constructor; eexists; (split; [reflexivity|]); simpl; eauto.
  - vm_compute. reflexivity.
  - vm_compute. reflexivity.
  - vm_compute. discriminate.
Qed.

Lemma fetchDownloadCount_failure_not_cached_witness :
  let '(v, c1) := fetchDownloadCount (fun _ _ => Rejected) "u" new in
  v = VNum 0 /\ cache c1 = cache new /\ requests c1 = requests new ++ ["u"] /\
  requests (fetchDownloadCount (fun _ _ => Rejected) "u" c1).2
  = requests new ++ ["u"; "u"].
Proof.
  apply (fetchDownloadCount_failure_not_cached (fun _ _ => Rejected) "u" new);
    [reflexivity|left; reflexivity].
Defined.

Lemma fetchDownloadCount_cached_once_witness :
  let net := serves (VArr two_releases) in
  let '(v1, c1) := fetchDownloadCount net "u" new in
  v1 = VNum 5 /\ requests c1 = requests new ++ ["u"] /\
  (forall others,
      let c2 := (fetchAll net others c1).2 in
      fetchDownloadCount net "u" c2 = (v1, c2)) /\
  (forall releases,
      net (length (requests new)) "u" = Response true (Some (VArr releases)) ->
      Forall release_ok releases -> counts_nonneg releases ->
      exists n, v1 = VNum n /\ 0 <= n).
Proof.
  apply (fetchDownloadCount_cached_once (serves (VArr two_releases)) "u" new
           (VNum 5)); reflexivity.
Defined.

(** C5 fails when the first fetch fails: of two calls with the same URL,
    the first returns 0 and is not cached, the second sends the request
    again and returns another value. *)
Lemma fetchDownloadCount_twice_refetches :
  let r := fetchAll flaky ["u"; "u"] new in
  r.1 = [VNum 0; VNum 5] /\ requests r.2 = ["u"; "u"] /\
  ~ ((exists v, r.1 = [v; v]) /\ (length (requests r.2) <= 1)%nat).
Proof.
  split_and!; [vm_compute; reflexivity..|].
  intros [_ Hle]. vm_compute in Hle. lia.
Qed.

End DownloadCounterFacts.

(** ** Strings *)

Module StrFacts.
Import Str.

Lemma app_nil_l s : "" +:+ s = s.
Proof. reflexivity. Qed.

Lemma app_cons c s t : String c s +:+ t = String c (s +:+ t).
Proof. reflexivity. Qed.

Ltac str_simpl := simpl; rewrite ?app_nil_l, ?app_cons.
Ltac str_simpl_in H := simpl in H; rewrite ?app_nil_l, ?app_cons in H.

Lemma app_nil_r s : s +:+ "" = s.
Proof. induction s; str_simpl; congruence. Qed.

Lemma app_assoc a b c : (a +:+ b) +:+ c = a +:+ b +:+ c.
Proof. induction a; str_simpl; congruence. Qed.

Lemma prefix_app t s : startsWith s t = true <-> exists post, s = t +:+ post.
Proof.
  revert s. induction t as [|c t IH]; intros s.
  - destruct s; simpl; split; eauto.
  - destruct s as [|d s]; simpl; [split; [done|intros [? ?]; done]|].
    destruct (Ascii.eqb_spec c d) as [->|Hne]; simpl.
    + rewrite IH. split; intros [post H]; exists post;
        [str_simpl|str_simpl_in H]; congruence.
    + split; [done|]. intros [post H]. str_simpl_in H. congruence.
Qed.

(** [s.includes(t)] holds exactly when [t] occurs in [s]. *)
Lemma includes_spec s t :
  includes s t = true <-> exists pre post, s = pre +:+ t +:+ post.
Proof.
  induction s as [|c s IH]; cbn [includes].
  - rewrite orb_false_r, prefix_app. split.
    + intros [post H]. exists "", post. done.
    + intros (pre & post & H). destruct pre; [eauto|done].
  - rewrite orb_true_iff, prefix_app, IH. split.
    + intros [[post H] | (pre & post & H)].
      * exists "", post. done.
      * exists (String c pre), post. str_simpl. congruence.
    + intros (pre & post & H). destruct pre as [|d pre]; str_simpl_in H.
      * left. eauto.
      * right. exists pre, post. congruence.
Qed.

Lemma toLowerCase_app a b :
  toLowerCase (a +:+ b) = toLowerCase a +:+ toLowerCase b.
Proof. induction a; str_simpl; congruence. Qed.

Lemma toLowerCase_split s x y :
  toLowerCase s = x +:+ y ->
  exists a b, s = a +:+ b /\ toLowerCase a = x /\ toLowerCase b = y.
Proof.
  revert s. induction x as [|c x IH]; intros s H; str_simpl_in H.
  - exists "", s. done.
  - destruct s as [|d s]; [done|]. simpl in H. injection H as Hc Hs.
    destruct (IH _ Hs) as (a & b & -> & Ha & Hb).
    exists (String d a), b. str_simpl. split_and!; congruence.
Qed.

Lemma toLowerCase_nil s : toLowerCase s = "" <-> s = "".
Proof. destruct s; simpl; split; congruence. Qed.

Lemma includes_toLowerCase s q :
  includes (toLowerCase s) (toLowerCase q) = true <-> ci_substring q s.
Proof.
  rewrite includes_spec. split.
  - intros (x & z & H).
    destruct (toLowerCase_split _ _ _ H) as (pre & r & -> & <- & Hr).
    destruct (toLowerCase_split _ _ _ Hr) as (mid & post & -> & Hm & <-).
    exists pre, mid, post. done.
  - intros (pre & mid & post & -> & Hm).
    exists (toLowerCase pre), (toLowerCase post).
    by rewrite !toLowerCase_app, Hm.
Qed.

End StrFacts.

(** ** applyFilters *)

Module FilterFacts.
Import RepositoryLoader.

Lemma filterM_total {A} (f : A -> result bool) (g : A -> bool) l :
  Forall (fun x => f x = Ok (g x)) l ->
  filterM f l = Ok (List.filter g l).
Proof.
  induction 1 as [|x l Hx _ IH]; simpl; [done|].
  rewrite Hx. cbn [mbind result_bind]. rewrite IH. cbn [mbind result_bind].
  by destruct (g x).
Qed.

Lemma filterM_ext {A} (f g : A -> result bool) l :
  (forall x, x ∈ l -> f x = g x) -> filterM f l = filterM g l.
Proof.
  induction l as [|x l IH]; intros H; simpl; [done|].
  rewrite (H x) by left. rewrite IH; [done|].
  intros y Hy. apply H. by right.
Qed.

Lemma filter_sublist {A} (g : A -> bool) l : sublist (List.filter g l) l.
Proof.
  induction l as [|x l IH]; simpl; [constructor|].
  destruct (g x); by constructor.
Qed.

Lemma elem_of_filter {A} (g : A -> bool) l x :
  x ∈ List.filter g l <-> x ∈ l /\ g x = true.
Proof. rewrite !list_elem_of_In. apply filter_In. Qed.

Lemma text_or_or v fallback s :
  Package.text_or v fallback = Some s ->
  JS.or v (VStr fallback) = VStr s.
Proof.
  unfold Package.text_or, JS.or. destruct (JS.truthy v); [|congruence].
  destruct v; simpl; congruence.
Qed.

Lemma author_of_or v s :
  Package.author_of v = Some s ->
  exists author_name,
    JS.get_opt v "name" = Ok author_name /\
    JS.or (JS.or author_name v) (VStr "") = VStr s.
Proof.
  destruct v; intros H;
    try (exists VUndefined; split; [reflexivity|]; apply (text_or_or _ _ _ H)).
  cbn [Package.author_of] in H.
  destruct (JS.truthy (JS.assoc "name" fields)) eqn:E; [|done].
  exists (JS.assoc "name" fields); split; [reflexivity|].
  unfold JS.or. rewrite !E.
  destruct (JS.assoc "name" fields); simpl in H; congruence.
Qed.

Lemma tags_of_or keywords old_tags l :
  Package.tags_of keywords old_tags = Some l ->
  JS.or (JS.or keywords old_tags) (VArr []) = VArr l.
Proof.
  unfold Package.tags_of, JS.or.
  destruct (JS.truthy keywords) eqn:Ek.
  - rewrite Ek. destruct keywords; simpl in *; congruence.
  - destruct (JS.truthy old_tags) eqn:Eo; [|congruence].
    destruct old_tags; simpl in *; congruence.
Qed.

Lemma existsb_has selected l :
  existsb (JSSet.has selected) l = true <->
  exists tag, tag ∈ l /\ tag ∈ selected.
Proof.
  rewrite existsb_exists. unfold JSSet.has.
  split; intros (tag & H1 & H2); exists tag.
  - apply bool_decide_eq_true in H2. by rewrite list_elem_of_In.
  - rewrite <- list_elem_of_In. by rewrite bool_decide_eq_true.
Qed.

(** The callback on a manifest that stands for a Package: it does not
    throw, and it answers as the predicate of the specification. *)
Lemma matches_spec_iff query selected pkg p :
  Package.of_manifest pkg = Some p ->
  exists b, matches (Str.toLowerCase query) selected pkg = Ok b /\
            (b = true <-> Package.matches_spec query selected p).
Proof.
  destruct pkg; try done. cbn [Package.of_manifest].
  destruct (Package.text (JS.assoc "name" fields)) as [n|] eqn:En; [|done].
  cbn [mbind option_bind].
  destruct (Package.text_or (JS.assoc "displayName" fields) n) as [d|] eqn:Ed;
    [|done].
  cbn [mbind option_bind].
  destruct (Package.author_of (JS.assoc "author" fields)) as [a|] eqn:Ea;
    [|done].
  cbn [mbind option_bind].
  destruct (Package.text (JS.assoc "description" fields)) as [ds|] eqn:Eds;
    [|done].
  cbn [mbind option_bind].
  destruct (Package.tags_of (JS.assoc "keywords" fields)
              (JS.assoc "tags" fields)) as [l|] eqn:El; [|done].
  cbn [mbind option_bind]. intros [= <-].
  unfold matches, normalize. cbn [JS.get mbind result_bind].
  destruct (author_of_or _ _ Ea) as (an & Han & Hau).
  rewrite Han. cbn [mbind result_bind displayName authorName tags].
  rewrite Hau, (tags_of_or _ _ _ El).
  destruct (JS.assoc "name" fields) as [| | | | |n'| |] eqn:En'; try done.
  injection En as ->.
  rewrite (text_or_or _ _ _ Ed).
  destruct (JS.assoc "description" fields) as [| | | | |ds'| |]; try done.
  injection Eds as ->.
  unfold Package.matches_spec. cbn [Package.name Package.displayName
    Package.author Package.description Package.tags JS.toLowerCase
    mbind result_bind JS.truthy].
  setoid_rewrite <- StrFacts.includes_toLowerCase.
  setoid_rewrite <- existsb_has.
  assert (Hq : (Str.toLowerCase query =? "")%string = true <-> query = "").
  { rewrite String.eqb_eq. apply StrFacts.toLowerCase_nil. }
  destruct selected as [|s0 sel];
    (destruct (Str.toLowerCase query =? "")%string eqn:E0;
     [|destruct (Str.includes (Str.toLowerCase n) (Str.toLowerCase query)) eqn:E1;
     [|destruct (Str.includes (Str.toLowerCase d) (Str.toLowerCase query)) eqn:E2;
     [|destruct (Str.includes (Str.toLowerCase ds) (Str.toLowerCase query)) eqn:E3]]]);
    cbn [mbind result_bind]; (eexists; split; [reflexivity|]);
    rewrite ?andb_true_r, ?andb_true_iff; naive_solver.
Qed.

Lemma matches_matchb query selected pkg :
  is_Some (Package.of_manifest pkg) ->
  matches (Str.toLowerCase query) selected pkg = Ok (matchb query selected pkg).
Proof.
  intros [p Hp]. unfold matchb.
  destruct (matches_spec_iff query selected pkg p Hp) as (b & -> & _). done.
Qed.

(** C3: on packages that are Packages of the data model, the filter keeps
    a package exactly when (the query is empty or is, up to case, a
    substring of its name, display name, description or author) and (no
    tag is selected or the package has one of the selected tags); what it
    keeps is a subsequence of the packages, in their order. *)
Theorem applyFilters_spec st :
  Forall (fun pkg => is_Some (Package.of_manifest pkg)) (packages st) ->
  exists kept,
    applyFilters st = Ok (with_filteredPackages st kept) /\
    sublist kept (packages st) /\
    forall pkg p,
      Package.of_manifest pkg = Some p ->
      (pkg ∈ kept <->
       pkg ∈ packages st /\
       Package.matches_spec (searchInput st) (selectedTags st) p).
Proof.
  intros Hwf.
  exists (List.filter (matchb (searchInput st) (selectedTags st)) (packages st)).
  split_and!.
  - unfold applyFilters.
    rewrite (filterM_total _ (matchb (searchInput st) (selectedTags st))).
    + reflexivity.
    + eapply Forall_impl; [exact Hwf|]. intros pkg Hp.
      by apply matches_matchb.
  - apply filter_sublist.
  - intros pkg p Hp. rewrite elem_of_filter.
    destruct (matches_spec_iff (searchInput st) (selectedTags st) pkg p Hp)
      as (b & Hb & Hiff).
    unfold matchb. rewrite Hb. naive_solver.
Qed.

End FilterFacts.

(** ** loadManifests *)

Module LoadFacts.
Import RepositoryLoader.

Lemma elem_of_add s v x : x ∈ JSSet.add s v <-> x ∈ s \/ x = v.
Proof.
  unfold JSSet.add, JSSet.has. case_bool_decide.
  - naive_solver.
  - rewrite elem_of_app, list_elem_of_singleton. done.
Qed.

Lemma elem_of_addAll l s x : x ∈ JSSet.addAll s l <-> x ∈ s \/ x ∈ l.
Proof.
  unfold JSSet.addAll. revert s. induction l as [|v l IH]; intros s; simpl.
  - rewrite elem_of_nil. naive_solver.
  - rewrite IH, elem_of_add, elem_of_cons. naive_solver.
Qed.

Lemma NoDup_add s v : NoDup s -> NoDup (JSSet.add s v).
Proof.
  intros H. unfold JSSet.add, JSSet.has. case_bool_decide; [done|].
  apply NoDup_app. split_and!; [done| |apply NoDup_singleton].
  intros x Hx Hv. apply list_elem_of_singleton in Hv. congruence.
Qed.

Lemma NoDup_addAll l s : NoDup s -> NoDup (JSSet.addAll s l).
Proof.
  unfold JSSet.addAll. revert s. induction l as [|v l IH]; intros s H; simpl;
    [done|]. by apply IH, NoDup_add.
Qed.

Section Net.
Variable net : string -> response.

Lemma loadManifest_fst repoUrl st :
  (loadManifest net repoUrl st).1 = fulfilled net repoUrl.
Proof.
  unfold loadManifest, fulfilled.
  by destruct (try_loadManifest net repoUrl) as [[m tags]|].
Qed.

Lemma loadManifest_allTags repoUrl st :
  allTags (loadManifest net repoUrl st).2
  = JSSet.addAll (allTags st) (new_tags net repoUrl).
Proof.
  unfold loadManifest, new_tags.
  by destruct (try_loadManifest net repoUrl) as [[m tags]|].
Qed.

Lemma get_not_null v k :
  JS.truthy v = true -> exists w, JS.get v k = Ok w.
Proof. destruct v; simpl; intros; try done; eauto. Qed.

(** A promise is kept by the filter of [loadManifests] exactly when its
    source contributes a manifest. *)
Lemma fulfilled_loaded repoUrl :
  (if JS.truthy (fulfilled net repoUrl) then Some (fulfilled net repoUrl) else None)
  = loaded net repoUrl.
Proof.
  unfold fulfilled, loaded, try_loadManifest.
  destruct (net (packageUrl repoUrl)) as [|[] [m|]]; try done.
  cbn [negb].
  destruct (JS.truthy m) eqn:E.
  - destruct (get_not_null m "name" E) as [w1 ->].
    destruct (get_not_null m "keywords" E) as [w2 ->].
    destruct (get_not_null m "tags" E) as [w3 ->].
    cbn [mbind result_bind]. by rewrite E.
  - destruct (JS.get m "name"); cbn [mbind result_bind]; [|done].
    destruct (JS.get m "keywords"); cbn [mbind result_bind]; [|done].
    destruct (JS.get m "tags"); cbn [mbind result_bind]; [|done].
    by rewrite E.
Qed.

Lemma new_tags_loaded repoUrl :
  new_tags net repoUrl
  = match loaded net repoUrl with
    | Some pkg => tag_list pkg
    | None => []
    end.
Proof.
  unfold new_tags, loaded, try_loadManifest, tag_list.
  destruct (net (packageUrl repoUrl)) as [|[] [m|]]; try done.
  cbn [negb].
  destruct m; cbn [JS.get JS.truthy mbind result_bind]; try done;
    by repeat case_match.
Qed.

Section Batch.
Variable repositories : list string.

(** The slots and the tags once the requests [answered] have been
    answered. *)
Lemma complete_fold answered slots st :
  let r := foldl (complete net repositories) (slots, st) answered in
  length r.1 = length slots /\
  (forall i repoUrl,
      repositories !! i = Some repoUrl -> (i < length slots)%nat ->
      r.1 !! i = if decide (i ∈ answered)
                 then Some (Some (Fulfilled (fulfilled net repoUrl)))
                 else slots !! i) /\
  (forall tag,
      tag ∈ allTags r.2 <->
      tag ∈ allTags st \/
      exists i repoUrl, i ∈ answered /\ repositories !! i = Some repoUrl /\
                        tag ∈ new_tags net repoUrl) /\
  (NoDup (allTags st) -> NoDup (allTags r.2)).
Proof.
  revert slots st. induction answered as [|x xs IH]; intros slots st.
  { simpl. split_and!; [done|done| |done].
    intros tag. split; [by left|].
    intros [H|(i & r & H & _)]; [done|]. by apply elem_of_nil in H. }
  cbn [foldl].
  destruct (IH (complete net repositories (slots, st) x).1
               (complete net repositories (slots, st) x).2)
    as (Hlen & Hslot & Htag & Hnd).
  rewrite <- surjective_pairing in Hlen, Hslot, Htag, Hnd.
  set (r := foldl (complete net repositories)
                  (complete net repositories (slots, st) x) xs) in *.
  unfold complete in Hlen, Hslot, Htag, Hnd. cbn [fst snd] in *.
  destruct (repositories !! x) as [rx|] eqn:Ex.
  - pose proof (loadManifest_fst rx st) as Hv.
    pose proof (loadManifest_allTags rx st) as Ht.
    destruct (loadManifest net rx st) as [v st1]. cbn [fst snd] in *.
    rewrite length_insert in Hlen, Hslot.
    split_and!; [done| | |].
    + intros i repoUrl Hi Hlt. rewrite (Hslot i repoUrl Hi Hlt).
      destruct (decide (i = x)) as [->|Hne].
      * rewrite list_lookup_insert_eq by done.
        assert (repoUrl = rx) as -> by congruence. subst v.
        rewrite (decide_True (P := x ∈ x :: xs)) by left.
        by case_decide.
      * rewrite list_lookup_insert_ne by done.
        destruct (decide (i ∈ xs)) as [Hin|Hin].
        -- rewrite decide_True; [done|by right].
        -- rewrite decide_False; [done|].
           rewrite elem_of_cons. naive_solver.
    + intros tag. rewrite Htag, Ht, elem_of_addAll. split.
      * intros [[H|H]|(i & r' & H1 & H2 & H3)].
        -- by left.
        -- right. exists x, rx. split_and!; [left|done|done].
        -- right. exists i, r'. split_and!; [by right|done|done].
      * intros [H|(i & r' & H1 & H2 & H3)]; [by left; left|].
        apply elem_of_cons in H1 as [->|H1].
        -- left; right. congruence.
        -- right. eauto.
    + intros H. apply Hnd. rewrite Ht. by apply NoDup_addAll.
  - split_and!; [done| | |done].
    + intros i repoUrl Hi Hlt. rewrite (Hslot i repoUrl Hi Hlt).
      destruct (decide (i ∈ xs)) as [Hin|Hin].
      * rewrite decide_True; [done|by right].
      * rewrite decide_False; [done|].
        rewrite elem_of_cons. intros [->|?]; [congruence|done].
    + intros tag. rewrite Htag. split.
      * intros [H|(i & r' & H1 & H2 & H3)]; [by left|].
        right. exists i, r'. split_and!; [by right|done|done].
      * intros [H|(i & r' & H1 & H2 & H3)]; [by left|].
        apply elem_of_cons in H1 as [->|H1]; [congruence|].
        right. eauto.
Qed.

Lemma kept_loaded l :
  settled_value <$> List.filter keep (Fulfilled ∘ fulfilled net <$> l)
  = omap (loaded net) l.
Proof.
  induction l as [|r l IH]; [done|].
  rewrite fmap_cons. cbn [List.filter omap list_omap compose keep].
  rewrite <- (fulfilled_loaded r).
  destruct (JS.truthy (fulfilled net r)).
  - rewrite fmap_cons. cbn [settled_value]. f_equal. apply IH.
  - apply IH.
Qed.

(** Once every request has been answered, in whatever order, the
    slots hold the results in the order of the sources. *)
Lemma loadManifests_run answered st :
  answered ≡ₚ seq 0 (length repositories) ->
  let r := foldl (complete net repositories)
                 (replicate (length repositories) None, st) answered in
  loadManifests net repositories answered st
  = Some (with_packages r.2 (omap (loaded net) repositories)).
Proof.
  intros Hperm r. unfold loadManifests. fold r.
  destruct (complete_fold answered
              (replicate (length repositories) None) st)
    as (Hlen & Hslot & _). fold r in Hlen, Hslot.
  rewrite length_replicate in Hlen, Hslot.
  assert (Hr : r.1 = Some <$> (Fulfilled ∘ fulfilled net <$> repositories)).
  { apply list_eq. intros i. rewrite !list_lookup_fmap.
    destruct (repositories !! i) as [ri|] eqn:Ei.
    - pose proof (lookup_lt_Some _ _ _ Ei) as Hlt.
      rewrite (Hslot i ri Ei Hlt). rewrite decide_True; [done|].
      rewrite Hperm. apply elem_of_seq. lia.
    - apply lookup_ge_None. apply lookup_ge_None in Ei. lia. }
  destruct r as [slots st1]. cbn [fst snd] in *. subst slots.
  rewrite mapM_fmap_Some by done. cbn [mbind option_bind].
  by rewrite kept_loaded.
Qed.

(** C1: whatever the order in which the requests are answered, the
    batch ends, and the packages are exactly the manifests of the
    sources that contribute one (request answered with a success
    status and a JSON body that counts as true), in the order of the
    sources; a source that fails gives no package and changes
    nothing for the others. *)
Theorem loadManifests_successes answered st :
  answered ≡ₚ seq 0 (length repositories) ->
  exists st',
    loadManifests net repositories answered st = Some st' /\
    packages st' = omap (loaded net) repositories.
Proof.
  intros Hperm. eexists. split; [by apply loadManifests_run|done].
Qed.

(** C7, first part: after the load of a new page, the tag index holds
    exactly the tags of the tag lists of the loaded packages, each
    once. *)
Lemma loadManifests_allTags answered st st' :
  answered ≡ₚ seq 0 (length repositories) ->
  allTags st = [] ->
  loadManifests net repositories answered st = Some st' ->
  NoDup (allTags st') /\
  forall tag,
    tag ∈ allTags st' <->
    exists pkg, pkg ∈ packages st' /\ tag ∈ tag_list pkg.
Proof.
  intros Hperm Hnil Hload.
  rewrite (loadManifests_run answered st Hperm) in Hload.
  injection Hload as <-.
  destruct (complete_fold answered
              (replicate (length repositories) None) st)
    as (_ & _ & Htag & Hnd).
  cbn [allTags packages with_packages]. split.
  { apply Hnd. rewrite Hnil. constructor. }
  intros tag. rewrite Htag, Hnil. split.
  - intros [H|(i & r & Hi & Hr & Ht)]; [by apply elem_of_nil in H|].
    rewrite new_tags_loaded in Ht.
    destruct (loaded net r) as [pkg|] eqn:El;
      [|by apply elem_of_nil in Ht].
    exists pkg. split; [|done].
    apply list_elem_of_omap. exists r. split; [|done].
    by eapply list_elem_of_lookup_2.
  - intros (pkg & Hp & Ht). right.
    apply list_elem_of_omap in Hp as (r & Hr & Hl).
    apply list_elem_of_lookup in Hr as [i Hi].
    exists i, r. split_and!; [|done|].
    + rewrite Hperm. apply elem_of_seq.
      pose proof (lookup_lt_Some _ _ _ Hi). lia.
    + by rewrite new_tags_loaded, Hl.
Qed.

End Batch.

End Net.

End LoadFacts.

(** ** Array.prototype.sort *)

Module SortFacts.
Import JS.

Lemma le_total x y : le x y \/ le y x.
Proof.
  unfold le, JS.sort_le.
  destruct (String.leb_total (JS.to_string x) (JS.to_string y));
    destruct x, y; auto.
Qed.

Lemma le_trans x y z : le x y -> le y z -> le x z.
Proof.
  unfold le, JS.sort_le. intros Hxy Hyz.
  assert (Htr : forall a b c : string,
    String.leb a b = true -> String.leb b c = true -> String.leb a c = true).
  { intros a b c H1 H2. apply Is_true_true.
    apply Is_true_true in H1, H2.
    exact (transitivity (R := String.le) H1 H2). }
  destruct z; try done; destruct y; try done; destruct x; try done;
    eapply Htr; eassumption.
Qed.

Lemma insert_sorted_perm x l : JS.insert_sorted x l ≡ₚ x :: l.
Proof.
  induction l as [|y l IH]; simpl; [done|].
  destruct (JS.sort_le x y); [done|].
  rewrite IH. apply Permutation_swap.
Qed.

Lemma sort_perm l : JS.sort l ≡ₚ l.
Proof.
  induction l as [|x l IH]; simpl; [done|].
  by rewrite insert_sorted_perm, IH.
Qed.

Lemma insert_sorted_hd x y l :
  le y x -> HdRel le y l -> HdRel le y (JS.insert_sorted x l).
Proof.
  intros Hyx Hl. destruct l as [|z l]; simpl; [by constructor|].
  destruct (JS.sort_le x z); constructor; [done|].
  by inversion Hl.
Qed.

Lemma insert_sorted_sorted x l :
  Sorted le l -> Sorted le (JS.insert_sorted x l).
Proof.
  induction 1 as [|y l Hs IH Hhd]; simpl; [by repeat constructor|].
  destruct (JS.sort_le x y) eqn:E.
  - constructor; [by constructor|]. by constructor.
  - constructor; [done|]. apply insert_sorted_hd; [|done].
    destruct (le_total x y) as [H|H]; [|done]. unfold le in H. congruence.
Qed.

(** The sorted array is in order, each element before the ones that
    follow it, and it has the elements of the array. *)
Lemma sort_sorted l : StronglySorted le (JS.sort l).
Proof.
  apply Sorted_StronglySorted; [exact le_trans|].
  induction l as [|x l IH]; simpl; [constructor|].
  by apply insert_sorted_sorted.
Qed.

(** On strings, the order is the one of their code units. *)
Lemma le_strings s t : le (VStr s) (VStr t) <-> String.le s t.
Proof. unfold le, String.le. simpl. by rewrite Is_true_true. Qed.

End SortFacts.

(** ** The tag index *)

Module TagIndexFacts.
Import RepositoryLoader.

Lemma applyFilters_keeps st st' :
  applyFilters st = Ok st' ->
  allTags st' = allTags st /\ packages st' = packages st /\
  selectedTags st' = selectedTags st /\ searchInput st' = searchInput st.
Proof.
  unfold applyFilters. destruct (filterM _ _); cbn [mbind result_bind]; [|done].
  by intros [= <-].
Qed.

Lemma loadFromURL_keeps st st' :
  loadFromURL st = Ok st' ->
  allTags st' = allTags st /\ packages st' = packages st.
Proof.
  unfold loadFromURL. case_match.
  - destruct (filterM _ _); cbn [mbind result_bind]; [|done].
    by intros [= <-].
  - case_match.
    + intros Hf. apply applyFilters_keeps in Hf as (-> & -> & _).
      by repeat case_match.
    + intros [= <-]. by repeat case_match.
Qed.

Section Net.
Variable net : string -> response.

Lemma loadManifests_grows repositories answered st st' tag :
  loadManifests net repositories answered st = Some st' ->
  tag ∈ allTags st -> tag ∈ allTags st'.
Proof.
  unfold loadManifests. intros H Htag.
  destruct (LoadFacts.complete_fold net repositories answered
              (replicate (length repositories) None) st)
    as (_ & _ & Hin & _).
  destruct (foldl _ _ _) as [slots st1]. cbn [fst snd] in *.
  destruct (mapM _ slots); [|done]. cbn [mbind option_bind] in H.
  injection H as <-. cbn [allTags with_packages]. apply Hin. by left.
Qed.

(** No operation of a session removes a tag from the index. *)
Lemma step_grows st st' tag :
  step net st st' -> tag ∈ allTags st -> tag ∈ allTags st'.
Proof.
  intros Hstep Htag. inversion Hstep; subst; try done.
  - by eapply loadManifests_grows.
  - by match goal with
       | H : loadFromURL _ = Ok _ |- _ =>
           apply loadFromURL_keeps in H as [-> _]
       end.
  - by match goal with
       | H : applyFilters _ = Ok _ |- _ =>
           apply applyFilters_keeps in H as [-> _]
       end.
  - match goal with
    | H : toggleTag _ _ = Ok _ |- _ =>
        unfold toggleTag in H; apply applyFilters_keeps in H as [-> _]
    end. by case_match.
  - by match goal with
       | H : handleSearch _ = Ok _ |- _ =>
           unfold handleSearch in H; apply applyFilters_keeps in H as [-> _]
       end.
Qed.

Lemma steps_grow st st' tag :
  rtc (step net) st st' -> tag ∈ allTags st -> tag ∈ allTags st'.
Proof. induction 1; eauto using step_grows. Qed.

(** C7: after the load of a new page, the tag index holds exactly the
    tags of the tag lists of the loaded packages (sources that fail
    load no package and add no tag); whatever the operations that
    follow, no tag leaves the index; and the list of the filter panel
    has the tags of the index in the default order of [sort], the code
    units of their text. *)
Theorem allTags_union_grows_sorted repositories answered st0 st1 st2 :
  answered ≡ₚ seq 0 (length repositories) ->
  allTags st0 = [] ->
  loadManifests net repositories answered st0 = Some st1 ->
  rtc (step net) st1 st2 ->
  (forall tag,
      tag ∈ allTags st1 <->
      exists pkg, pkg ∈ omap (loaded net) repositories /\ tag ∈ tag_list pkg) /\
  (forall tag, tag ∈ allTags st1 -> tag ∈ allTags st2) /\
  StronglySorted JS.le (buildTagsList st2) /\
  buildTagsList st2 ≡ₚ allTags st2 /\
  (forall s t rest,
      (exists before, buildTagsList st2 = before ++ VStr s :: rest) ->
      VStr t ∈ rest -> String.le s t).
Proof.
  intros Hperm Hnil Hload Hsteps.
  destruct (LoadFacts.loadManifests_allTags net repositories answered
              st0 st1 Hperm Hnil Hload) as [_ Hunion].
  assert (Hpk : packages st1 = omap (loaded net) repositories).
  { rewrite (LoadFacts.loadManifests_run net repositories answered st0 Hperm)
      in Hload. by injection Hload as <-. }
  split_and!.
  - intros tag. rewrite Hunion, Hpk. done.
  - intros tag. by apply steps_grow.
  - apply SortFacts.sort_sorted.
  - apply SortFacts.sort_perm.
  - intros s t rest [before Hb] Ht.
    pose proof (SortFacts.sort_sorted (allTags st2)) as Hs.
    unfold buildTagsList in Hb. rewrite Hb in Hs.
    apply StronglySorted_app_1_r in Hs.
    apply StronglySorted_inv in Hs as [_ Hall].
    rewrite Forall_forall in Hall.
    apply SortFacts.le_strings, Hall, Ht.
Qed.

End Net.

End TagIndexFacts.

(** ** Slugs *)

Module SlugFacts.
Import Str StrFacts.

Lemma replace_runs_run run s :
  all_outside run = true -> starts_inside s = true ->
  replace_runs true (run +:+ s) = replace_runs false s.
Proof.
  intros Hrun Hs. induction run as [|c run IH]; str_simpl.
  - destruct s as [|c s]; [done|]. simpl in *. by rewrite Hs.
  - simpl in Hrun. apply andb_true_iff in Hrun as [Hc Hrun].
    apply negb_true_iff in Hc. simpl. rewrite Hc. by apply IH.
Qed.

(** [replace_runs] is the one reading of a string run by run. *)
Lemma slugged_unique s t : slugged s t -> t = replace_runs false s.
Proof.
  induction 1 as [|c s t Hc _ IH|c run s t Hc Hrun Hs _ IH].
  - done.
  - simpl. rewrite Hc. congruence.
  - str_simpl. simpl. rewrite Hc. rewrite replace_runs_run by done. congruence.
Qed.

(** The longest prefix outside [a-z0-9], and what follows it. *)
Lemma split_run s :
  exists run rest,
    s = run +:+ rest /\ all_outside run = true /\ starts_inside rest = true /\
    (String.length rest <= String.length s)%nat.
Proof.
  induction s as [|c s (run & rest & -> & Hrun & Hrest & Hlen)].
  - exists "", "". done.
  - destruct (is_alnum c) eqn:Hc.
    + exists "", (String c (run +:+ rest)). simpl. done.
    + exists (String c run), rest. simpl. rewrite Hc, Hrun.
      split_and!; [done..|]. simpl in Hlen. lia.
Qed.

Lemma replace_runs_slugged s : slugged s (replace_runs false s).
Proof.
  remember (String.length s) as n eqn:Hn.
  revert s Hn. induction (lt_wf n) as [n _ IH]; intros s ->.
  destruct s as [|c s]; [constructor|]. simpl.
  destruct (is_alnum c) eqn:Hc.
  - constructor; [done|]. eapply IH; [|reflexivity]. simpl. lia.
  - destruct (split_run s) as (run & rest & -> & Hrun & Hrest & Hlen).
    rewrite replace_runs_run by done.
    change (String c (run +:+ rest)) with (String c run +:+ rest).
    constructor; [done..|]. eapply IH; [|reflexivity]. simpl. lia.
Qed.

Lemma slug_spec name t : slug name = t <-> slugged (toLowerCase name) t.
Proof.
  unfold slug. split.
  - intros <-. apply replace_runs_slugged.
  - intros H. by apply slugged_unique in H.
Qed.

End SlugFacts.

Example slug_my_package : Str.slug "My Package 1" = "my-package-1".
Proof. reflexivity. Qed.

(** ** loadFromURL: the link to one package *)

Module LinkFacts.
Import RepositoryLoader.

Lemma cardId_slug pkg name :
  Package.name_of pkg = Some name -> cardId pkg = Ok (Str.slug name).
Proof.
  destruct pkg; try done. simpl. unfold cardId. cbn [JS.get mbind result_bind].
  destruct (JS.assoc "name" fields); try done. by intros [= ->].
Qed.

Lemma filter_fmap_NoDup {A B} `{EqDecision B} (f : A -> B) (y : B) l :
  NoDup (f <$> l) ->
  (length (List.filter (fun x => bool_decide (f x = y)) l) <= 1)%nat.
Proof.
  induction l as [|x l IH]; [simpl; lia|].
  rewrite fmap_cons. intros [Hx Hl]%NoDup_cons. specialize (IH Hl).
  cbn [List.filter]. case_bool_decide as Hy; [|done].
  assert (List.filter (fun x => bool_decide (f x = y)) l = []) as ->;
    [|simpl; lia].
  destruct (List.filter _ l) as [|z k] eqn:E; [done|].
  assert (Hz : z ∈ List.filter (fun x => bool_decide (f x = y)) l)
    by (rewrite E; left).
  apply FilterFacts.elem_of_filter in Hz as [Hz Hfz].
  apply bool_decide_eq_true in Hfz. destruct Hx.
  rewrite Hy, <- Hfz. by apply list_elem_of_fmap_2.
Qed.

(** C6, as the code has it: with a fragment and no query parameter at
    all, [loadFromURL] keeps exactly the packages whose slug (the name in
    lower case, every run of characters outside a-z0-9 replaced by one
    hyphen) is the fragment, whatever the search box and the selected
    tags held; when the slugs of the packages are pairwise different,
    that is at most one package. *)
Theorem loadFromURL_direct_link st fragment :
  substring1 (hash st) = fragment -> fragment <> "" -> search st = [] ->
  Forall (fun pkg => is_Some (Package.name_of pkg)) (packages st) ->
  exists kept,
    loadFromURL st
    = Ok (with_filteredPackages
            (with_searchInput (with_selectedTags st []) "") kept) /\
    sublist kept (packages st) /\
    (forall pkg name,
        Package.name_of pkg = Some name ->
        (pkg ∈ kept <->
         pkg ∈ packages st /\ Str.slugged (Str.toLowerCase name) fragment)) /\
    (NoDup (Package.slug_of <$> packages st) -> (length kept <= 1)%nat).
Proof.
  intros Hfrag Hne Hsearch Hwf.
  exists (List.filter (Package.has_slug fragment) (packages st)).
  split_and!.
  - unfold loadFromURL. rewrite Hfrag, Hsearch.
    apply String.eqb_neq in Hne. rewrite Hne. cbn [negb andb].
    rewrite bool_decide_eq_true_2 by done.
    cbn [packages with_searchInput with_selectedTags].
    rewrite (FilterFacts.filterM_total _ (Package.has_slug fragment)); [done|].
    eapply Forall_impl; [exact Hwf|]. intros pkg [name Hname].
    rewrite (cardId_slug _ _ Hname). cbn [mbind result_bind].
    unfold Package.has_slug, Package.slug_of. rewrite Hname. simpl. f_equal.
    destruct (String.eqb_spec (Str.slug name) fragment) as [->|Hn].
    + by rewrite bool_decide_eq_true_2.
    + rewrite bool_decide_eq_false_2; [done|]. congruence.
  - apply FilterFacts.filter_sublist.
  - intros pkg name Hname. rewrite FilterFacts.elem_of_filter.
    unfold Package.has_slug, Package.slug_of. rewrite Hname. simpl.
    rewrite bool_decide_eq_true, <- SlugFacts.slug_spec.
    split; (intros [H1 H2]; split; [done|congruence]).
  - apply filter_fmap_NoDup.
Qed.

End LinkFacts.

(** ** updateURL and loadFromURL *)

Module UrlFacts.
Import RepositoryLoader StrFacts.

Lemma split_no_comma x : Str.no_comma x = true -> Str.split x = [x].
Proof.
  induction x as [|c x IH]; simpl; [done|].
  intros [Hc Hx]%andb_true_iff. apply negb_true_iff in Hc.
  rewrite Hc, (IH Hx). done.
Qed.

Lemma split_app_comma x s :
  Str.no_comma x = true ->
  Str.split (x +:+ String "," s) = x :: Str.split s.
Proof.
  induction x as [|c x IH]; [done|].
  intros [Hc Hx]%andb_true_iff. apply negb_true_iff in Hc.
  rewrite app_cons. cbn [Str.split]. rewrite Hc, (IH Hx). done.
Qed.

Lemma split_join l :
  l <> [] -> Forall (fun x => Str.no_comma x = true) l ->
  Str.split (Str.join l) = l.
Proof.
  intros Hne Hl. induction Hl as [|x l Hx Hl IH]; [done|].
  destruct l as [|y l].
  - simpl. by apply split_no_comma.
  - change (Str.join (x :: y :: l))
      with (x +:+ String "," (Str.join (y :: l))).
    rewrite split_app_comma by done. f_equal. by apply IH.
Qed.

Lemma join_strings l : JS.join (VStr <$> l) = Str.join l.
Proof.
  unfold JS.join. cbn [JS.to_string]. f_equal.
  induction l as [|x l IH]; [done|]. rewrite !fmap_cons. simpl. by f_equal.
Qed.

Lemma join_nonempty l :
  l <> [] -> Forall (fun x => x <> "") l -> Str.join l <> "".
Proof.
  intros Hne Hl. destruct Hl as [|x l Hx Hl]; [done|].
  destruct x; [done|]. destruct l; simpl; [done|]. by rewrite app_cons.
Qed.

(** Lists of plain tags are lists of strings. *)
Lemma plain_tags_strings l :
  Forall plain_tag l ->
  exists ss, l = VStr <$> ss /\
             Forall (fun s => s <> "" /\ Str.no_comma s = true /\ Str.trim s = s) ss.
Proof.
  induction 1 as [|v l (s & -> & Hs) _ (ss & -> & Hss)].
  - by exists [].
  - exists (s :: ss). split; [done|]. by constructor.
Qed.

Lemma elem_of_selectKnown all tagArray selected v :
  v ∈ selectKnown all selected tagArray <->
  v ∈ selected \/ (v ∈ VStr <$> tagArray /\ v ∈ all).
Proof.
  unfold selectKnown. revert selected.
  induction tagArray as [|x l IH]; intros selected; simpl.
  - rewrite elem_of_nil. naive_solver.
  - rewrite IH, elem_of_cons. unfold JSSet.has at 1. case_bool_decide as Hx.
    + rewrite LoadFacts.elem_of_add. naive_solver.
    + naive_solver.
Qed.

(** The callback of the filter reads the selected tags as a set. *)
Lemma matches_ext q selected selected' pkg :
  (forall v, v ∈ selected <-> v ∈ selected') ->
  matches q selected pkg = matches q selected' pkg.
Proof.
  intros H. unfold matches.
  destruct (normalize "" pkg) as [f|]; cbn [mbind result_bind]; [|done].
  assert (Hhas : forall l, existsb (JSSet.has selected) l
                           = existsb (JSSet.has selected') l).
  { intros l. induction l as [|x l IH]; simpl; [done|]. rewrite IH.
    f_equal. unfold JSSet.has. apply bool_decide_ext, H. }
  match goal with
  | |- ?m ≫= _ = _ => destruct m; cbn [mbind result_bind]; [|done]
  end.
  destruct selected as [|s0 sel], selected' as [|s0' sel']; [done| | |].
  - exfalso. eapply elem_of_nil, H. left.
  - exfalso. eapply elem_of_nil, H. left.
  - destruct (JS.truthy (tags f)); [|done].
    destruct (tags f); try done. by rewrite Hhas.
Qed.

Lemma filter_trimmed ss :
  Forall (fun s => s <> "" /\ Str.no_comma s = true /\ Str.trim s = s) ss ->
  List.filter (fun t => negb (String.eqb t "")) (Str.trim <$> ss) = ss.
Proof.
  induction 1 as [|s ss (Hne & _ & Htrim) _ IH]; [done|].
  rewrite fmap_cons. cbn [List.filter]. rewrite Htrim.
  apply String.eqb_neq in Hne. rewrite Hne. cbn [negb]. by f_equal.
Qed.

(** What the filter computes depends on the search box, the selected
    tags (as a set) and the packages only. *)
Lemma applyFilters_ext st st' :
  searchInput st' = searchInput st -> packages st' = packages st ->
  (forall v, v ∈ selectedTags st' <-> v ∈ selectedTags st) ->
  match applyFilters st, applyFilters st' with
  | Ok a, Ok b => filteredPackages b = filteredPackages a
  | Throw e, Throw e' => e = e'
  | _, _ => False
  end.
Proof.
  intros Hq Hp Hsel. unfold applyFilters. rewrite Hq, Hp.
  rewrite (FilterFacts.filterM_ext
             (matches (Str.toLowerCase (searchInput st)) (selectedTags st'))
             (matches (Str.toLowerCase (searchInput st)) (selectedTags st))).
  - by destruct (filterM _ _).
  - intros pkg _. by apply matches_ext.
Qed.

(** Without a search term and without a selected tag, the filter keeps
    every package. *)
Lemma applyFilters_all st :
  searchInput st = "" -> selectedTags st = [] ->
  Forall (fun pkg => JS.truthy pkg = true) (packages st) ->
  applyFilters st = Ok (with_filteredPackages st (packages st)).
Proof.
  intros Hq Hsel Hp. unfold applyFilters. rewrite Hq, Hsel.
  rewrite (FilterFacts.filterM_total _ (fun _ => true)).
  - cbn [mbind result_bind]. do 2 f_equal.
    generalize (packages st). intros l.
    induction l as [|x l IH]; simpl; congruence.
  - eapply Forall_impl; [exact Hp|]. intros pkg Ht.
    unfold matches, normalize.
    destruct (LoadFacts.get_not_null pkg "displayName" Ht) as [w1 ->].
    destruct (LoadFacts.get_not_null pkg "name" Ht) as [w2 ->].
    destruct (LoadFacts.get_not_null pkg "author" Ht) as [w3 ->].
    destruct (LoadFacts.get_not_null pkg "keywords" Ht) as [w5 ->].
    destruct (LoadFacts.get_not_null pkg "tags" Ht) as [w6 ->].
    cbn [mbind result_bind].
    assert (exists w4, JS.get_opt w3 "name" = Ok w4) as [w4 ->].
    { destruct w3; simpl; eauto. }
    reflexivity.
Qed.

(** What [loadFromURL] reads back from the URL written by [updateURL]:
    a state with the same search term, the same packages and the same
    selected tags, which it filters (or shows whole, when the URL holds
    nothing). *)
Lemma loadFromURL_updateURL st :
  Str.trim (searchInput st) = searchInput st ->
  Forall plain_tag (selectedTags st) ->
  (forall tag, tag ∈ selectedTags st -> tag ∈ allTags st) ->
  exists st2,
    searchInput st2 = searchInput st /\ packages st2 = packages st /\
    (forall v, v ∈ selectedTags st2 <-> v ∈ selectedTags st) /\
    (loadFromURL (updateURL st) = applyFilters st2 \/
     (searchInput st = "" /\ selectedTags st = [] /\
      loadFromURL (updateURL st)
      = Ok (with_filteredPackages st2 (packages st2)))).
Proof.
  intros Htrim Hplain Hknown.
  unfold updateURL. rewrite Htrim.
  destruct (selectedTags st) as [|s0 sel] eqn:Esel.
  - (* no tag selected *)
    cbn [length Nat.ltb Nat.leb].
    destruct (String.eqb_spec (searchInput st) "") as [Hq|Hq]; cbn [negb].
    + exists (decoded st [] "" []).
      split_and!; [by cbn..|].
      right. split_and!; [done..|]. unfold loadFromURL. cbn. reflexivity.
    + exists (decoded st [("search", searchInput st)] (searchInput st) []).
      split_and!; [by cbn..|].
      left. apply String.eqb_neq in Hq. unfold loadFromURL.
      repeat first [rewrite Hq | progress cbn -[applyFilters]].
      reflexivity.
  - (* some tags selected *)
    cbn [length Nat.ltb Nat.leb].
    pose proof (SortFacts.sort_perm (s0 :: sel)) as Hperm.
    assert (Hsorted : Forall plain_tag (JS.sort (s0 :: sel))) by by rewrite Hperm.
    destruct (plain_tags_strings _ Hsorted) as (ss & Hss & Hclean).
    assert (Hne : ss <> []).
    { intros ->. rewrite Hss in Hperm.
      by apply Permutation_nil_cons in Hperm. }
    assert (Hjoin : Str.join ss <> "").
    { apply join_nonempty; [done|].
      eapply Forall_impl; [exact Hclean|]. naive_solver. }
    assert (Hsplit : Str.split (Str.join ss) = ss).
    { apply split_join; [done|].
      eapply Forall_impl; [exact Hclean|]. naive_solver. }
    assert (Hmem : forall v,
      v ∈ selectKnown (allTags st) [] ss <-> v ∈ s0 :: sel).
    { intros v. rewrite elem_of_selectKnown, elem_of_nil, <- Hss, Hperm.
      naive_solver. }
    rewrite Hss, join_strings.
    apply String.eqb_neq in Hjoin.
    destruct (String.eqb_spec (searchInput st) "") as [Hq|Hq]; cbn [negb].
    + exists (decoded st [("tags", Str.join ss)] ""
                (selectKnown (allTags st) [] ss)).
      split_and!; [by cbn..|].
      left. unfold loadFromURL.
      repeat first [rewrite Hjoin | progress cbn -[applyFilters selectKnown]].
      rewrite Hsplit, (filter_trimmed _ Hclean). reflexivity.
    + exists (decoded st [("search", searchInput st); ("tags", Str.join ss)]
                (searchInput st) (selectKnown (allTags st) [] ss)).
      split_and!; [by cbn..|].
      left. apply String.eqb_neq in Hq. unfold loadFromURL.
      repeat first [rewrite Hq | rewrite Hjoin
                   | progress cbn -[applyFilters selectKnown]].
      rewrite Hsplit, (filter_trimmed _ Hclean). reflexivity.
Qed.

(** C2, as the code has it: for a search term without white space at
    its ends and selected tags that are plain (strings that are not
    empty, without comma and without white space at their ends) and in
    the tag index, reading back the URL written by [updateURL] gives the
    filtered packages that [applyFilters] gives on the state itself, the
    same search term and the same selected tags, in whatever order they
    had been selected. *)
Theorem updateURL_loadFromURL_round_trip st :
  Str.trim (searchInput st) = searchInput st ->
  Forall plain_tag (selectedTags st) ->
  (forall tag, tag ∈ selectedTags st -> tag ∈ allTags st) ->
  Forall (fun pkg => JS.truthy pkg = true) (packages st) ->
  match applyFilters st, loadFromURL (updateURL st) with
  | Ok direct, Ok read =>
      filteredPackages read = filteredPackages direct /\
      searchInput read = searchInput st /\
      (forall tag, tag ∈ selectedTags read <-> tag ∈ selectedTags st)
  | Throw e, Throw e' => e = e'
  | _, _ => False
  end.
Proof.
  intros Htrim Hplain Hknown Htruthy.
  destruct (loadFromURL_updateURL st Htrim Hplain Hknown)
    as (st2 & Hq & Hp & Hsel & [Heq | (Hq0 & Hs0 & Heq)]); rewrite Heq.
  - pose proof (applyFilters_ext st st2 Hq Hp Hsel) as Hext.
    destruct (applyFilters st) as [a|e], (applyFilters st2) as [b|e'] eqn:Eb;
      try done.
    apply TagIndexFacts.applyFilters_keeps in Eb as (_ & _ & Hs & Hi).
    split_and!; [done|congruence|]. intros tag. by rewrite Hs.
  - rewrite (applyFilters_all st Hq0 Hs0 Htruthy). cbn.
    split_and!; [done..|]. intros tag. by rewrite Hsel, Hs0.
Qed.

End UrlFacts.

(** ** The fallbacks for absent fields *)

Module NormalizeFacts.
Import RepositoryLoader.




End NormalizeFacts.

(** ** The properties on the sample data *)

Module SampleFacts.
Import RepositoryLoader Sample.

Example convertToRawUrl_sample :
  convertToRawUrl <$> repositories
  = [ "https://raw.githubusercontent.com/forge/one/main";
      "https://raw.githubusercontent.com/forge/two/main";
      "https://raw.githubusercontent.com/forge/three/main";
      "https://raw.githubusercontent.com/forge/four/main";
      "https://example.org/five" ].
Proof. vm_compute. reflexivity. Qed.

(** Five sources, the second and the fourth of which fail, answered in
    the order 4, 1, 5, 3, 2: the three packages come in the order of the
    sources. *)
Lemma loadManifests_successes_witness :
  exists st',
    loadManifests net repositories answered new = Some st' /\
    packages st' = omap (loaded net) repositories.
Proof.
  apply (LoadFacts.loadManifests_successes net repositories answered new).
  apply (bool_decide_unpack _). vm_compute. exact I.
Defined.

Example loadManifests_sample :
  loadManifests net repositories answered new = Some after_load /\
  omap (loaded net) repositories = [pkg1; pkg2; pkg3].
Proof. split; vm_compute; reflexivity. Qed.

Lemma sample_packages :
  Forall (fun pkg => is_Some (Package.of_manifest pkg)) [pkg1; pkg2; pkg3].
Proof. repeat constructor; by eexists. Defined.

Lemma applyFilters_spec_witness :
  exists kept,
    applyFilters (searching "PACK" [VStr "a"])
    = Ok (with_filteredPackages (searching "PACK" [VStr "a"]) kept) /\
    sublist kept [pkg1; pkg2; pkg3] /\
    forall pkg p,
      Package.of_manifest pkg = Some p ->
      (pkg ∈ kept <->
       pkg ∈ [pkg1; pkg2; pkg3] /\ Package.matches_spec "PACK" [VStr "a"] p).
Proof.
  apply (FilterFacts.applyFilters_spec (searching "PACK" [VStr "a"])).
  exact sample_packages.
Defined.

Example applyFilters_sample :
  applyFilters (searching "PACK" [VStr "a"])
  = Ok (with_filteredPackages (searching "PACK" [VStr "a"]) [pkg1; pkg2]).
Proof. vm_compute. reflexivity. Qed.



(** C6 fails on packages that share a slug: a link to my-package-1,
    which is the slug of two packages, shows both. *)
Lemma direct_link_two_results :
  exists st',
    loadFromURL (linked "#my-package-1") = Ok st' /\
    filteredPackages st' = [pkg1; pkg3] /\
    ~ (length (filteredPackages st') <= 1)%nat.
Proof.
  eexists. split_and!; [vm_compute; reflexivity..|]. vm_compute. lia.
Qed.

Lemma sample_names :
  Forall (fun pkg => is_Some (Package.name_of pkg)) [pkg1; pkg2; pkg3].
Proof. repeat constructor; by eexists. Defined.

Lemma loadFromURL_direct_link_witness :
  exists kept,
    loadFromURL (linked "#other")
    = Ok (with_filteredPackages
            (with_searchInput (with_selectedTags (linked "#other") []) "") kept) /\
    sublist kept [pkg1; pkg2; pkg3] /\
    (forall pkg name,
        Package.name_of pkg = Some name ->
        (pkg ∈ kept <->
         pkg ∈ [pkg1; pkg2; pkg3] /\ Str.slugged (Str.toLowerCase name) "other")) /\
    (NoDup (Package.slug_of <$> [pkg1; pkg2; pkg3]) -> (length kept <= 1)%nat).
Proof.
  apply (LinkFacts.loadFromURL_direct_link (linked "#other") "other");
    [reflexivity|discriminate|reflexivity|exact sample_names].
Defined.

Example loadFromURL_sample :
  filteredPackages <$> (match loadFromURL (linked "#other") with
                        | Ok st => Some st
                        | Throw _ => None
                        end) = Some [pkg2].
Proof. vm_compute. reflexivity. Qed.

(** C2 fails on a search term that ends with a space: Twin followed by a
    space finds nothing, but the URL written for it holds Twin, which
    finds a package when read back. *)
Lemma round_trip_trims_query :
  let st := searching "Twin " [] in
  search (updateURL st) = [("search", "Twin")] /\
  applyFilters st = Ok (with_filteredPackages st []) /\
  (exists read,
      loadFromURL (updateURL st) = Ok read /\ filteredPackages read = [pkg3]) /\
  ~ (match applyFilters st, loadFromURL (updateURL st) with
     | Ok direct, Ok read => filteredPackages read = filteredPackages direct
     | _, _ => False
     end).
Proof.
  split_and!; [vm_compute; reflexivity..| |].
  - eexists. split; vm_compute; reflexivity.
  - vm_compute. discriminate.
Qed.

(** The selected tag c,d is written as two tags, none of which is in
    the index: read back, no tag is selected. *)
Example round_trip_splits_comma :
  let st := searching "" [VStr "c,d"] in
  search (updateURL st) = [("tags", "c,d")] /\
  (filteredPackages <$> (match applyFilters st with
                         | Ok s => Some s | Throw _ => None end)
   = Some [pkg2]) /\
  ((fun s => (filteredPackages s, selectedTags s))
     <$> (match loadFromURL (updateURL st) with
          | Ok s => Some s | Throw _ => None end)
   = Some ([pkg1; pkg2; pkg3], [])).
Proof. split_and!; vm_compute; reflexivity. Qed.

Lemma sample_plain : Forall plain_tag [VStr "b"; VStr "a"].
Proof.
  repeat constructor; eexists; (split; [reflexivity|]);
    (split_and!; [discriminate|reflexivity|reflexivity]).
Defined.

Lemma sample_known tag :
  tag ∈ [VStr "b"; VStr "a"] -> tag ∈ [VStr "b"; VStr "a"; VStr "c,d"].
Proof.
  intros H.
  change [VStr "b"; VStr "a"; VStr "c,d"]
    with ([VStr "b"; VStr "a"] ++ [VStr "c,d"]).
  apply elem_of_app. left. exact H.
Defined.

Lemma sample_truthy : Forall (fun pkg => JS.truthy pkg = true) [pkg1; pkg2; pkg3].
Proof. repeat constructor. Defined.

Lemma updateURL_loadFromURL_round_trip_witness :
  let st := searching "foo" [VStr "b"; VStr "a"] in
  match applyFilters st, loadFromURL (updateURL st) with
  | Ok direct, Ok read =>
      filteredPackages read = filteredPackages direct /\
      searchInput read = "foo" /\
      (forall tag, tag ∈ selectedTags read <-> tag ∈ [VStr "b"; VStr "a"])
  | Throw e, Throw e' => e = e'
  | _, _ => False
  end.
Proof.
  apply (UrlFacts.updateURL_loadFromURL_round_trip
           (searching "foo" [VStr "b"; VStr "a"]));
    [reflexivity|exact sample_plain|exact sample_known|exact sample_truthy].
Defined.

Example updateURL_sample :
  let st := updateURL (searching "foo" [VStr "b"; VStr "a"]) in
  search st = [("search", "foo"); ("tags", "a,b")] /\ hash st = "".
Proof. split; vm_compute; reflexivity. Qed.

Lemma allTags_union_grows_sorted_witness :
  (forall tag,
      tag ∈ allTags after_load <->
      exists pkg, pkg ∈ omap (loaded net) repositories /\ tag ∈ tag_list pkg) /\
  (forall tag, tag ∈ allTags after_load -> tag ∈ allTags (clearFilters after_load)) /\
  StronglySorted JS.le (buildTagsList (clearFilters after_load)) /\
  buildTagsList (clearFilters after_load) ≡ₚ allTags (clearFilters after_load) /\
  (forall s t rest,
      (exists before,
          buildTagsList (clearFilters after_load) = before ++ VStr s :: rest) ->
      VStr t ∈ rest -> String.le s t).
Proof.
  apply (TagIndexFacts.allTags_union_grows_sorted net repositories
           answered new after_load (clearFilters after_load)).
  - apply (bool_decide_unpack _). vm_compute. exact I.
  - reflexivity.
  - vm_compute. reflexivity.
  - apply rtc_once. exact (step_clearFilters net after_load).
Defined.

(** A body that is the JSON [null] is fetched and parsed, but reading its
    name throws: the source is reported and gives no package. *)
Example loadManifest_null :
  loadManifest (fun _ => Response true (Some VNull)) "u" new
  = (VNull, showError new "u").
Proof. reflexivity. Qed.

(** A manifest without description is not a Package of the data model: the
    filter throws on it when the term is not found in its names. *)
Example applyFilters_no_description :
  applyFilters
    (with_searchInput (with_packages new [VObj [("name", VStr "lonely")]]) "zzz")
  = Throw TypeError.
Proof. vm_compute. reflexivity. Qed.

Example buildTagsList_sample :
  buildTagsList page = [VStr "a"; VStr "b"; VStr "c,d"].
Proof. vm_compute. reflexivity. Qed.

End SampleFacts.

(** * Further properties of the code *)

(** ** The card identifier *)

Module CardIdFacts.
Import Str StrFacts.

Lemma is_alnum_lower c : is_alnum c = true -> lower_char c = c.
Proof.
  destruct c as [[] [] [] [] [] [] [] []]; intros H; try discriminate H;
    reflexivity.
Qed.

Lemma is_alnum_not_hyphen c : is_alnum c = true -> is_hyphen c = false.
Proof.
  destruct c as [[] [] [] [] [] [] [] []]; intros H; try discriminate H;
    reflexivity.
Qed.

Lemma replace_runs_shape b s :
  all_chars (fun c => is_alnum c || is_hyphen c) (replace_runs b s) = true /\
  includes (replace_runs b s) "--" = false /\
  (b = true -> startsWith (replace_runs b s) "-" = false).
Proof.
  revert b. induction s as [|c s IH]; intros b; [by destruct b|].
  cbn [replace_runs]. destruct (is_alnum c) eqn:Hc.
  - destruct (IH false) as (H1 & H2 & _).
    pose proof (is_alnum_not_hyphen c Hc) as Hh. unfold is_hyphen in Hh.
    cbn [all_chars includes startsWith]. rewrite Hc, H1, H2.
    rewrite (Ascii.eqb_sym "-" c), Hh. done.
  - destruct b.
    + apply IH.
    + destruct (IH true) as (H1 & H2 & H3). specialize (H3 eq_refl).
      cbn [all_chars includes]. rewrite H1, H2, orb_false_r.
      split_and!; [done| |done].
      cbn [startsWith]. rewrite Ascii.eqb_refl. exact H3.
Qed.

Lemma replace_runs_fixed s :
  all_chars (fun c => is_alnum c || is_hyphen c) s = true ->
  includes s "--" = false ->
  replace_runs false s = s /\
  (startsWith s "-" = false -> replace_runs true s = s).
Proof.
  induction s as [|c s IH]; [done|].
  cbn [all_chars includes]. intros [Hc Hs]%andb_true_iff [H1 H2]%orb_false_iff.
  destruct (IH Hs H2) as [IHf IHt].
  cbn [replace_runs]. destruct (is_alnum c) eqn:Ec.
  - rewrite IHf. done.
  - simpl in Hc. unfold is_hyphen in Hc. apply Ascii.eqb_eq in Hc as ->.
    cbn [startsWith] in H1. rewrite Ascii.eqb_refl in H1. simpl in H1.
    split.
    + rewrite IHt; [done|].
      destruct s as [|d s]; [done|]. cbn [startsWith] in *.
      by destruct (Ascii.eqb "-" d).
    + intros H. cbn [startsWith] in H. rewrite Ascii.eqb_refl in H.
      by destruct s.
Qed.

Lemma toLowerCase_fixed s :
  all_chars (fun c => is_alnum c || is_hyphen c) s = true -> toLowerCase s = s.
Proof.
  induction s as [|c s IH]; [done|].
  cbn [all_chars toLowerCase]. intros [Hc Hs]%andb_true_iff.
  rewrite (IH Hs). f_equal. apply orb_true_iff in Hc as [Hc|Hc].
  - by apply is_alnum_lower.
  - unfold is_hyphen in Hc. by apply Ascii.eqb_eq in Hc as ->.
Qed.

(** X1: The identifier of a card is made of the characters a-z, 0-9 and the
    hyphen only, and never has two hyphens in a row. *)
Theorem slug_url_friendly name :
  all_chars (fun c => is_alnum c || is_hyphen c) (slug name) = true /\
  includes (slug name) "--" = false.
Proof.
  unfold slug.
  destruct (replace_runs_shape false (toLowerCase name)) as (H1 & H2 & _).
  done.
Qed.

(** X2: The identifier of a card is its own identifier: a name that is already
    a slug is kept as it is. *)
Theorem slug_idempotent name : slug (slug name) = slug name.
Proof.
  destruct (replace_runs_shape false (toLowerCase name)) as (H1 & H2 & _).
  unfold slug at 1. fold (slug name) in H1, H2.
  rewrite (toLowerCase_fixed _ H1).
  by destruct (replace_runs_fixed _ H1 H2).
Qed.

End CardIdFacts.

(** ** convertToRawUrl and parseReleaseUrl *)

Module UrlShapeFacts.
Import RepositoryLoader Str StrFacts.

Lemma strip_prefix_app p s : strip_prefix p (p +:+ s) = Some s.
Proof.
  induction p as [|c p IH]; [by destruct s|].
  rewrite app_cons. cbn [strip_prefix]. by rewrite Ascii.eqb_refl.
Qed.

Lemma strip_prefix_Some p s r : strip_prefix p s = Some r -> s = p +:+ r.
Proof.
  revert s. induction p as [|c p IH]; intros s H.
  - destruct s; simpl in H; injection H as <-; reflexivity.
  - destruct s as [|d s]; [done|]. cbn [strip_prefix] in H.
    destruct (Ascii.eqb_spec c d) as [->|]; [|done].
    rewrite app_cons. f_equal. by apply IH.
Qed.

Lemma strip_prefix_other p c d s :
  c <> d -> strip_prefix (String c p) (String d s) = None.
Proof.
  intros H. cbn [strip_prefix]. by destruct (Ascii.eqb_spec c d).
Qed.

(** A segment without slash, followed by nothing or by a slash, is read
    whole. *)
Lemma span_segment_app seg rest :
  all_chars not_slash seg = true ->
  startsWith rest "/" = true \/ rest = "" ->
  span_segment (seg +:+ rest) = (seg, rest).
Proof.
  intros Hseg Hrest. induction seg as [|c seg IH].
  - rewrite app_nil_l. destruct Hrest as [H| ->]; [|done].
    destruct rest as [|d rest]; [done|]. cbn [startsWith] in H.
    apply andb_true_iff in H as [H _]. apply Ascii.eqb_eq in H as <-. done.
  - cbn [all_chars] in Hseg. apply andb_true_iff in Hseg as [Hc Hseg].
    rewrite app_cons. cbn [span_segment]. unfold not_slash in Hc.
    apply negb_true_iff in Hc. rewrite Hc, (IH Hseg). done.
Qed.

Lemma startsWith_slash s : startsWith ("/" +:+ s) "/" = true.
Proof. rewrite app_cons, app_nil_l. by destruct s. Qed.

Lemma includes_app_r pre mid post :
  includes (pre +:+ mid +:+ post) mid = true.
Proof. apply includes_spec. by exists pre, post. Qed.

(** A match found by the pattern of [convertToRawUrl] starts with the host
    and a slash. *)
Lemma match_github_includes url m :
  match_github url = Some m -> includes url "github.com/" = true.
Proof.
  induction url as [|c url IH]; cbn [match_github].
  - unfold match_here. simpl. done.
  - destruct (match_here (String c url)) eqn:E.
    + intros _. unfold match_here in E.
      destruct (strip_prefix "github.com/" (String c url)) as [r|] eqn:Es;
        [|done].
      apply strip_prefix_Some in Es. rewrite Es.
      apply (includes_app_r "" "github.com/" r).
    + intros H. cbn [includes]. rewrite (IH H). apply orb_true_r.
Qed.

Lemma strip_git_app r : strip_git (r +:+ ".git") = r.
Proof.
  induction r as [|c r IH]; [done|].
  rewrite app_cons. cbn [strip_git].
  destruct (String.eqb_spec (String c (r +:+ ".git")) ".git") as [E|_].
  - apply (f_equal String.length) in E. simpl in E.
    assert (Hl : forall a b, String.length (a +:+ b)
                             = (String.length a + String.length b)%nat).
    { intros a b. induction a; [done|]. rewrite app_cons. simpl. lia. }
    rewrite Hl in E. simpl in E. lia.
  - by rewrite IH.
Qed.

Lemma strip_git_other s : (forall r, s <> r +:+ ".git") -> strip_git s = s.
Proof.
  induction s as [|c s IH]; intros H; [done|].
  cbn [strip_git].
  destruct (String.eqb_spec (String c s) ".git") as [E|_].
  - destruct (H ""). by rewrite app_nil_l.
  - f_equal. apply IH. intros r ->. destruct (H (String c r)).
    by rewrite app_cons.
Qed.

Lemma match_github_skip scheme s :
  all_chars not_g scheme = true ->
  match_github (scheme +:+ s) = match_github s.
Proof.
  induction scheme as [|c scheme IH]; [done|].
  cbn [all_chars]. intros [Hc Hs]%andb_true_iff.
  rewrite app_cons. cbn [match_github]. unfold match_here at 1.
  rewrite strip_prefix_other.
  - by apply IH.
  - intros <-. done.
Qed.

(** X3: The address of a repository on github.com, with or without what
    follows the repository name, is rewritten to the root of its main
    branch on the raw-content host. *)
Theorem convertToRawUrl_github scheme owner repo rest :
  all_chars not_g scheme = true ->
  owner <> "" -> all_chars not_slash owner = true ->
  repo <> "" -> all_chars not_slash repo = true ->
  startsWith rest "/" = true \/ rest = "" ->
  includes (scheme +:+ "github.com/" +:+ owner +:+ "/" +:+ repo +:+ rest)
           "raw.githubusercontent.com" = false ->
  convertToRawUrl (scheme +:+ "github.com/" +:+ owner +:+ "/" +:+ repo +:+ rest)
  = "https://raw.githubusercontent.com/" +:+ owner +:+ "/"
      +:+ strip_git repo +:+ "/main".
Proof.
  intros Hscheme Ho Hos Hr Hrs Hrest Hraw.
  unfold convertToRawUrl. rewrite Hraw.
  rewrite (match_github_skip _ _ Hscheme).
  assert (Hm : match_github ("github.com/" +:+ owner +:+ "/" +:+ repo +:+ rest)
               = Some (owner, repo)); [|by rewrite Hm].
  assert (Hh : match_here ("github.com/" +:+ owner +:+ "/" +:+ repo +:+ rest)
               = Some (owner, repo)).
  { unfold match_here. rewrite strip_prefix_app.
    rewrite (span_segment_app owner ("/" +:+ repo +:+ rest) Hos)
      by (left; apply startsWith_slash).
    destruct owner as [|o owner]; [done|].
    rewrite app_cons, app_nil_l.
    rewrite (span_segment_app repo rest Hrs Hrest).
    by destruct repo. }
  destruct ("github.com/" +:+ owner +:+ "/" +:+ repo +:+ rest) eqn:E;
    cbn [match_github]; by rewrite Hh.
Qed.

Lemma convertToRawUrl_github_witness :
  convertToRawUrl ("https://" +:+ "github.com/" +:+ "forge" +:+ "/"
                     +:+ "two.git" +:+ "/tree/main")
  = "https://raw.githubusercontent.com/" +:+ "forge" +:+ "/"
      +:+ strip_git "two.git" +:+ "/main".
Proof.
  apply (convertToRawUrl_github "https://" "forge" "two.git" "/tree/main");
    [reflexivity|discriminate|reflexivity|discriminate|reflexivity
    |left; reflexivity|reflexivity].
Defined.

(** X4: An address in which [github.com/] does not occur is passed on as it
    is. *)
Theorem convertToRawUrl_other url :
  includes url "github.com/" = false -> convertToRawUrl url = url.
Proof.
  intros H. unfold convertToRawUrl.
  destruct (includes url "raw.githubusercontent.com"); [done|].
  destruct (match_github url) as [m|] eqn:E; [|done].
  apply match_github_includes in E. congruence.
Qed.

Lemma convertToRawUrl_other_witness :
  convertToRawUrl "https://example.org/five" = "https://example.org/five".
Proof. apply convertToRawUrl_other. reflexivity. Defined.

(** X5: Converting twice is converting once: a converted address is on the
    raw-content host, or is an address that the conversion leaves alone. *)
Theorem convertToRawUrl_idempotent url :
  convertToRawUrl (convertToRawUrl url) = convertToRawUrl url.
Proof.
  unfold convertToRawUrl at 2.
  destruct (includes url "raw.githubusercontent.com") eqn:Hraw.
  - unfold convertToRawUrl. by rewrite Hraw.
  - destruct (match_github url) as [[owner repo]|] eqn:E.
    + assert (Hi : includes ("https://raw.githubusercontent.com/" +:+ owner
                               +:+ "/" +:+ strip_git repo +:+ "/main")
                              "raw.githubusercontent.com" = true)
        by exact (includes_app_r "https://" "raw.githubusercontent.com"
                    ("/" +:+ owner +:+ "/" +:+ strip_git repo +:+ "/main")).
      unfold convertToRawUrl. by rewrite Hi, Hraw, E.
    + unfold convertToRawUrl. by rewrite !Hraw, !E.
Qed.

End UrlShapeFacts.

Module ReleaseUrlFacts.
Import RepositoryLoader ReleaseUrl Str StrFacts UrlShapeFacts.

Lemma span_segment_inv s seg rest :
  span_segment s = (seg, rest) ->
  s = seg +:+ rest /\ all_chars not_slash seg = true /\
  (rest = "" \/ exists r, rest = String "/" r).
Proof.
  revert seg rest. induction s as [|c s IH]; intros seg rest H.
  - simpl in H. injection H as <- <-. split_and!; [done..|by left].
  - cbn [span_segment] in H. destruct (Ascii.eqb_spec c "/") as [->|Hc].
    + injection H as <- <-. split_and!; [done..|right; by eexists].
    + destruct (span_segment s) as [seg' rest'] eqn:E.
      injection H as <- <-. destruct (IH _ _ eq_refl) as (-> & Hseg & Hrest).
      rewrite app_cons. split_and!; [done| |done]. cbn [all_chars]. rewrite Hseg.
      unfold not_slash. by destruct (Ascii.eqb_spec c "/").
Qed.

Lemma startsWith_app p s : startsWith (p +:+ s) p = true.
Proof. apply prefix_app. by exists s. Qed.

Lemma match_here_inv s owner repo :
  match_here s = Some (owner, repo) ->
  exists post,
    s = "github.com/repos/" +:+ owner +:+ "/" +:+ repo +:+ "/releases" +:+ post /\
    owner <> "" /\ all_chars not_slash owner = true /\
    repo <> "" /\ all_chars not_slash repo = true.
Proof.
  unfold match_here.
  destruct (strip_prefix "github.com/repos/" s) as [r|] eqn:Es; [|done].
  apply strip_prefix_Some in Es as ->.
  destruct (span_segment r) as [o r1] eqn:Eo.
  apply span_segment_inv in Eo as (-> & Ho & Hr1).
  destruct o as [|o0 o]; [done|]. destruct r1 as [|c r2]; [done|].
  destruct Hr1 as [|[r' [= -> <-]]]; [done|].
  destruct (span_segment r2) as [p r3] eqn:Ep.
  apply span_segment_inv in Ep as (-> & Hp & _).
  destruct p as [|p0 p]; [done|].
  destruct (startsWith r3 "/releases") eqn:Er; [|done].
  intros [= <- <-]. apply prefix_app in Er as [post ->].
  exists post. split_and!; done.
Qed.

(** X6: What [parseReleaseUrl] returns is read in the address: the owner and
    the repository are the two segments between [github.com/repos/] and
    [/releases]; an address without [github.com/repos/] gives [null]. *)
Theorem parseReleaseUrl_sound releaseUrl :
  (forall owner repo,
      parseReleaseUrl releaseUrl = Some (owner, repo) ->
      exists pre post,
        releaseUrl = pre +:+ "github.com/repos/" +:+ owner +:+ "/" +:+ repo
                         +:+ "/releases" +:+ post /\
        owner <> "" /\ all_chars not_slash owner = true /\
        repo <> "" /\ all_chars not_slash repo = true) /\
  (includes releaseUrl "github.com/repos/" = false ->
   parseReleaseUrl releaseUrl = None).
Proof.
  assert (Hsound : forall owner repo,
    parseReleaseUrl releaseUrl = Some (owner, repo) ->
    exists pre post,
      releaseUrl = pre +:+ "github.com/repos/" +:+ owner +:+ "/" +:+ repo
                       +:+ "/releases" +:+ post /\
      owner <> "" /\ all_chars not_slash owner = true /\
      repo <> "" /\ all_chars not_slash repo = true).
  { intros owner repo. induction releaseUrl as [|c url IH];
      cbn [parseReleaseUrl].
    - by unfold match_here.
    - destruct (match_here (String c url)) as [m|] eqn:E.
      + intros [= ->]. apply match_here_inv in E as (post & E & H).
        exists "", post. by rewrite app_nil_l.
      + intros H. destruct (IH H) as (pre & post & -> & Hrest).
        exists (String c pre), post. by rewrite app_cons. }
  split; [exact Hsound|]. intros Hno.
  destruct (parseReleaseUrl releaseUrl) as [[owner repo]|] eqn:E; [|done].
  destruct (Hsound owner repo eq_refl) as (pre & post & -> & _).
  rewrite (includes_app_r pre "github.com/repos/"
             (owner +:+ "/" +:+ repo +:+ "/releases" +:+ post)) in Hno.
  done.
Qed.

Lemma parseReleaseUrl_skip scheme s :
  all_chars not_g scheme = true ->
  parseReleaseUrl (scheme +:+ s) = parseReleaseUrl s.
Proof.
  induction scheme as [|c scheme IH]; [done|].
  cbn [all_chars]. intros [Hc Hs]%andb_true_iff.
  rewrite app_cons. cbn [parseReleaseUrl]. unfold match_here at 1.
  rewrite strip_prefix_other.
  - by apply IH.
  - intros <-. done.
Qed.

(** X7: The address of the releases of a repository on the API host gives back
    its owner and its repository. *)
Theorem parseReleaseUrl_releases scheme owner repo rest :
  all_chars not_g scheme = true ->
  owner <> "" -> all_chars not_slash owner = true ->
  repo <> "" -> all_chars not_slash repo = true ->
  parseReleaseUrl (scheme +:+ "github.com/repos/" +:+ owner +:+ "/" +:+ repo
                          +:+ "/releases" +:+ rest)
  = Some (owner, repo).
Proof.
  intros Hscheme Ho Hos Hr Hrs.
  rewrite (parseReleaseUrl_skip _ _ Hscheme).
  assert (Hh : match_here ("github.com/repos/" +:+ owner +:+ "/" +:+ repo
                             +:+ "/releases" +:+ rest) = Some (owner, repo)).
  { unfold match_here. rewrite strip_prefix_app.
    rewrite (span_segment_app owner ("/" +:+ repo +:+ "/releases" +:+ rest) Hos)
      by (left; apply startsWith_slash).
    destruct owner as [|o owner]; [done|].
    rewrite app_cons, app_nil_l.
    rewrite (span_segment_app repo ("/releases" +:+ rest) Hrs)
      by (left; apply (startsWith_slash ("releases" +:+ rest))).
    destruct repo as [|p repo]; [done|].
    by rewrite startsWith_app. }
  destruct ("github.com/repos/" +:+ owner +:+ "/" +:+ repo
              +:+ "/releases" +:+ rest) eqn:E;
    cbn [parseReleaseUrl]; by rewrite Hh.
Qed.

Lemma parseReleaseUrl_sound_witness :
  exists pre post,
    "https://api.github.com/repos/forge/one/releases?per_page=5"
    = pre +:+ "github.com/repos/" +:+ "forge" +:+ "/" +:+ "one"
          +:+ "/releases" +:+ post /\
    "forge" <> "" /\ all_chars not_slash "forge" = true /\
    "one" <> "" /\ all_chars not_slash "one" = true.
Proof.
  apply (proj1 (parseReleaseUrl_sound
                  "https://api.github.com/repos/forge/one/releases?per_page=5")
           "forge" "one").
  reflexivity.
Defined.

Lemma parseReleaseUrl_releases_witness :
  parseReleaseUrl ("https://api." +:+ "github.com/repos/" +:+ "forge" +:+ "/"
                     +:+ "one" +:+ "/releases" +:+ "?per_page=5")
  = Some ("forge", "one").
Proof.
  apply (parseReleaseUrl_releases "https://api." "forge" "one" "?per_page=5");
    [reflexivity|discriminate|reflexivity|discriminate|reflexivity].
Defined.

End ReleaseUrlFacts.

(** ** formatCount at the edges *)

Module FormatCountFacts.
Import Float.

Lemma tenths_thousands count :
  1000 <= count < 1000000 ->
  - 50 <= 100 * tenths (div count 1000) - count <= 50.
Proof.
  intros [Hge Hlt]. change 1000 with (20 * 50) in *.
  destruct (scale_bound count (20 * 50) 9 20) as [Hs HD];
    [lia|lia|lia|reflexivity|lia|lia|].
  change (2 ^ (9 + 53 - 20)) with 4398046511104 in HD.
  pose proof (tenths_div_nearest count 50) as Hn. lia.
Qed.

Lemma tenths_millions count :
  1000000 <= count < 2 ^ 53 ->
  - 50000 <= 100000 * tenths (div count 1000000) - count <= 50000.
Proof.
  intros [Hge Hlt]. change 1000000 with (20 * 50000) in *.
  destruct (scale_bound count (20 * 50000) 19 53) as [Hs HD];
    [lia|lia|lia|reflexivity|lia|lia|].
  change (2 ^ (19 + 53 - 53)) with 524288 in HD.
  pose proof (tenths_div_nearest count 50000) as Hn. lia.
Qed.

Lemma formatCount_K count :
  1000 <= count < 1000000 ->
  formatCount count = decimal1 (tenths (div count 1000)) +:+ "K".
Proof.
  intros [Hge Hlt]. unfold formatCount.
  destruct (1000000 <=? count) eqn:E1; [apply Z.leb_le in E1; lia|].
  destruct (1000 <=? count) eqn:E2; [done|apply Z.leb_gt in E2; lia].
Qed.

Lemma formatCount_M count :
  1000000 <= count ->
  formatCount count = decimal1 (tenths (div count 1000000)) +:+ "M".
Proof.
  intros Hge. unfold formatCount.
  destruct (1000000 <=? count) eqn:E1; [done|apply Z.leb_gt in E1; lia].
Qed.

(** X8: Just below one million the count is not shown in millions: from
    999,950 on it rounds up to a thousand thousands. *)
Theorem formatCount_below_million count :
  999950 <= count < 1000000 -> formatCount count = "1000.0K".
Proof.
  intros [Hge Hlt]. destruct (decide (count = 999950)) as [->|Hne].
  { vm_compute. reflexivity. }
  rewrite formatCount_K by lia.
  pose proof (tenths_thousands count ltac:(lia)) as Hn.
  assert (tenths (div count 1000) = 10000) as -> by lia.
  reflexivity.
Qed.

Lemma formatCount_below_million_witness : formatCount 999987 = "1000.0K".
Proof. apply formatCount_below_million. lia. Defined.

(** X9: A whole number of hundreds, or of hundred thousands, is printed as it
    is: its tenths are exact. *)
Theorem formatCount_exact_tenths k :
  (10 <= k < 10000 -> formatCount (100 * k) = decimal1 k +:+ "K") /\
  (10 <= k -> 100000 * k < 2 ^ 53 ->
   formatCount (100000 * k) = decimal1 k +:+ "M").
Proof.
  split.
  - intros Hk. rewrite formatCount_K by lia.
    pose proof (tenths_thousands (100 * k) ltac:(lia)) as Hn.
    assert (tenths (div (100 * k) 1000) = k) as -> by lia. done.
  - intros Hk Hlt. rewrite formatCount_M by lia.
    pose proof (tenths_millions (100000 * k) ltac:(lia)) as Hn.
    assert (tenths (div (100000 * k) 1000000) = k) as -> by lia. done.
Qed.

End FormatCountFacts.

(** ** The download counter: what is requested and what is cached *)

Module CounterMoreFacts.
Import DownloadCounter DownloadCounterFacts.

Section Net.
Variable net : nat -> string -> response.

Lemma fetch_requests url c :
  requests (fetchDownloadCount net url c).2
  = requests c ++ (match cache c !! url with Some _ => [] | None => [url] end).
Proof.
  unfold fetchDownloadCount. destruct (cache c !! url).
  - by rewrite app_nil_r.
  - by destruct (try_fetch _ _ _).
Qed.

(** X10: A URL that is in the cache is never requested again, whatever calls
    are made, and no call sends more than one request; after [clearCache]
    the next call for the URL sends a request. *)
Theorem cached_never_requested url v c urls :
  cache c !! url = Some v ->
  (exists sent,
      requests (fetchAll net urls c).2 = requests c ++ sent /\
      (url ∉ sent) /\ (length sent <= length urls)%nat) /\
  requests (fetchDownloadCount net url (clearCache c)).2 = requests c ++ [url].
Proof.
  intros Hc. split.
  - revert c Hc. induction urls as [|u urls IH]; intros c Hc.
    + exists []. simpl. rewrite app_nil_r. split_and!; [done| |done].
      apply not_elem_of_nil.
    + cbn [fetchAll].
      pose proof (fetch_requests u c) as Hreq.
      pose proof (fetch_keeps net url u c v Hc) as Hkeep.
      destruct (fetchDownloadCount net u c) as [w c1]. cbn [snd] in *.
      destruct (IH c1 Hkeep) as (sent & Hsent & Hnot & Hlen).
      destruct (fetchAll net urls c1) as [vs c2]. cbn [snd] in *.
      exists ((match cache c !! u with Some _ => [] | None => [u] end) ++ sent).
      rewrite Hsent, Hreq, <- app_assoc. split_and!; [done| |].
      * destruct (cache c !! u) eqn:Eu; [done|].
        rewrite elem_of_app, list_elem_of_singleton. intros [->|?]; [|done].
        congruence.
      * rewrite length_app. destruct (cache c !! u); simpl; lia.
  - rewrite fetch_requests. by cbn.
Qed.

Lemma foldM_throws {A B} (f : A -> B -> result A) x l :
  x ∈ l -> (forall acc, exists e, f acc x = Throw e) ->
  forall acc, exists e, foldM f acc l = Throw e.
Proof.
  intros Hx Hf. induction l as [|y l IH]; intros acc.
  - by apply elem_of_nil in Hx.
  - cbn [foldM]. apply elem_of_cons in Hx as [<-|Hx].
    + destruct (Hf acc) as [e ->]. by exists e.
    + destruct (f acc y) as [acc'|e]; cbn [mbind result_bind]; eauto.
Qed.

(** X11: A body that is JSON but no release list (not an array, or an array
    with a [null] in it) makes the call return 0 and cache nothing, as any
    failure does. *)
Theorem fetchDownloadCount_not_a_list url c body :
  cache c !! url = None ->
  net (length (requests c)) url = Response true (Some body) ->
  (forall l, body <> VArr l) \/ (exists l, body = VArr l /\ VNull ∈ l) ->
  fetchDownloadCount net url c
  = (VNum 0, {| cache := cache c; requests := requests c ++ [url] |}).
Proof.
  intros Hc Hnet Hbody.
  assert (exists e, try_fetch net (length (requests c)) url = Throw e)
    as [e He].
  { unfold try_fetch. rewrite Hnet. cbn [negb].
    destruct Hbody as [Hno|(l & -> & Hnull)].
    - destruct body; try (by eexists). by destruct (Hno elems).
    - cbn [totalDownloads]. apply (foldM_throws _ VNull); [done|].
      intros acc. by exists TypeError. }
  unfold fetchDownloadCount. by rewrite Hc, He.
Qed.

End Net.

Lemma fetchDownloadCount_not_a_list_witness :
  fetchDownloadCount
    (Sample.serves (VObj [("message", VStr "Not Found")])) "u" new
  = (VNum 0, {| cache := cache new; requests := requests new ++ ["u"] |}).
Proof.
  apply (fetchDownloadCount_not_a_list
           (Sample.serves (VObj [("message", VStr "Not Found")])) "u" new
           (VObj [("message", VStr "Not Found")]));
    [reflexivity|reflexivity|left; discriminate].
Defined.

Lemma cached_never_requested_witness :
  let c := {| cache := {["u" := VNum 5]}; requests := ["u"] |} in
  (exists sent,
      requests (fetchAll Sample.flaky ["v"; "u"; "v"] c).2 = requests c ++ sent /\
      ("u" ∉ sent) /\ (length sent <= 3)%nat) /\
  requests (fetchDownloadCount Sample.flaky "u" (clearCache c)).2
  = requests c ++ ["u"].
Proof.
  apply (cached_never_requested Sample.flaky "u" (VNum 5)
           {| cache := {["u" := VNum 5]}; requests := ["u"] |} ["v"; "u"; "v"]).
  vm_compute. reflexivity.
Defined.

End CounterMoreFacts.

(** ** The loader: what is shown and what is selected *)

Module PageFacts.
Import RepositoryLoader.

Lemma filterM_sublist {A} (f : A -> result bool) l kept :
  filterM f l = Ok kept -> sublist kept l.
Proof.
  revert kept. induction l as [|x l IH]; intros kept; cbn [filterM].
  - intros [= <-]. constructor.
  - destruct (f x) as [b|]; cbn [mbind result_bind]; [|done].
    destruct (filterM f l) as [rest|]; cbn [mbind result_bind]; [|done].
    intros [= <-]. destruct b; constructor; by apply IH.
Qed.

Lemma applyFilters_shown st st' :
  applyFilters st = Ok st' -> sublist (filteredPackages st') (packages st').
Proof.
  unfold applyFilters.
  destruct (filterM _ _) as [kept|] eqn:E; cbn [mbind result_bind]; [|done].
  intros [= <-]. by apply filterM_sublist in E.
Qed.

(** When [loadFromURL] comes to its end, the search box and the selection
    are those of [urlState], and it has touched neither the packages, the
    index nor the location. *)
Lemma loadFromURL_urlState st st' :
  loadFromURL st = Ok st' ->
  selectedTags st' = selectedTags (urlState st) /\
  searchInput st' = searchInput (urlState st) /\
  allTags st' = allTags st /\ packages st' = packages st /\
  search st' = search st /\ hash st' = hash st /\ errors st' = errors st /\
  sublist (filteredPackages st') (packages st').
Proof.
  unfold loadFromURL, urlState.
  destruct (negb _ && _).
  - destruct (filterM _ _) as [kept|] eqn:E; cbn [mbind result_bind]; [|done].
    intros [= <-]. apply filterM_sublist in E. by split_and!.
  - destruct (Params.truthy _ || Params.truthy _).
    + intros Hf. pose proof (applyFilters_shown _ _ Hf) as Hsub.
      unfold applyFilters in Hf.
      destruct (filterM _ _) as [kept|]; cbn [mbind result_bind] in Hf; [|done].
      injection Hf as <-. split_and!; try done; by repeat case_match.
    + intros [= <-]. split_and!; try done; by repeat case_match.
Qed.


(** The tags [urlState] selects are pieces of the [tags] parameter,
    trimmed and not empty, that the index holds. *)
Lemma urlState_selected st tag :
  tag ∈ selectedTags (urlState st) ->
  tag ∈ allTags st /\
  exists joined piece,
    Params.get (search st) "tags" = Some joined /\
    piece ∈ Str.split joined /\
    tag = VStr (Str.trim piece) /\ Str.trim piece <> "".
Proof.
  unfold urlState. destruct (negb _ && _).
  { cbn. by intros ?%elem_of_nil. }
  destruct (Params.get (search st) "tags") as [joined|] eqn:Et.
  2:{ repeat case_match; cbn; by intros ?%elem_of_nil. }
  destruct (Params.truthy (Some joined)).
  2:{ repeat case_match; cbn; by intros ?%elem_of_nil. }
  assert (Hsel : forall st0,
             selectedTags st0 = [] -> allTags st0 = allTags st ->
             tag ∈ selectedTags
                     (with_selectedTags st0
                        (selectKnown (allTags st0) (selectedTags st0)
                           (List.filter (fun t => negb (String.eqb t ""))
                                        (Str.trim <$> Str.split joined)))) ->
             tag ∈ allTags st /\
             exists joined0 piece,
               Some joined = Some joined0 /\ piece ∈ Str.split joined0 /\
               tag = VStr (Str.trim piece) /\ Str.trim piece <> "").
  { intros st0 Hnil Hall. cbn [selectedTags with_selectedTags].
    rewrite UrlFacts.elem_of_selectKnown, Hnil, Hall.
    intros [?%elem_of_nil|[Hin Hknown]]; [done|]. split; [done|].
    apply list_elem_of_fmap in Hin as (s & -> & Hs).
    apply FilterFacts.elem_of_filter in Hs as [Hs Hne].
    apply list_elem_of_fmap in Hs as (piece & -> & Hpiece).
    exists joined, piece. split_and!; try done.
    apply negb_true_iff, String.eqb_neq in Hne. done. }
  repeat case_match; by apply Hsel.
Qed.

(** X12: What [loadFromURL] selects: only tags of the index, and only pieces of
    the [tags] parameter of the location, trimmed and not empty. The
    packages, the index and the location are as before. *)
Theorem loadFromURL_selects_known st st' :
  loadFromURL st = Ok st' ->
  (forall tag,
      tag ∈ selectedTags st' ->
      tag ∈ allTags st /\
      exists joined piece,
        Params.get (search st) "tags" = Some joined /\
        piece ∈ Str.split joined /\
        tag = VStr (Str.trim piece) /\ Str.trim piece <> "") /\
  allTags st' = allTags st /\ packages st' = packages st /\
  search st' = search st /\ hash st' = hash st.
Proof.
  intros (Hsel & _ & Hall & Hp & Hs & Hh & _)%loadFromURL_urlState.
  split_and!; try done. intros tag. rewrite Hsel. apply urlState_selected.
Qed.

Section Net.
Variable net : string -> response.





End Net.

End PageFacts.

(** ** The filter: more tags widen, a longer query narrows *)

Module FilterMoreFacts.
Import RepositoryLoader.

Lemma filterM_mono {A} (f g : A -> result bool) l kept :
  (forall x b, x ∈ l -> f x = Ok b ->
               exists b', g x = Ok b' /\ (b = true -> b' = true)) ->
  filterM f l = Ok kept ->
  exists kept', filterM g l = Ok kept' /\ sublist kept kept'.
Proof.
  revert kept. induction l as [|x l IH]; intros kept Hfg; cbn [filterM].
  - intros [= <-]. exists []. by split.
  - destruct (f x) as [b|] eqn:Ef; cbn [mbind result_bind]; [|done].
    destruct (filterM f l) as [rest|]; cbn [mbind result_bind]; [|done].
    intros [= <-].
    destruct (Hfg x b) as (b' & -> & Hb); [left|done|].
    destruct (IH rest) as (rest' & -> & Hsub); [|done|].
    { intros y c Hy. apply Hfg. by right. }
    cbn [mbind result_bind]. eexists. split; [done|].
    destruct b; [rewrite Hb by done; by constructor|].
    destruct b'; [by constructor|done].
Qed.

Lemma existsb_has_mono selected selected' l :
  (forall v, v ∈ selected -> v ∈ selected') ->
  existsb (JSSet.has selected) l = true ->
  existsb (JSSet.has selected') l = true.
Proof.
  intros H. rewrite !FilterFacts.existsb_has. naive_solver.
Qed.

Lemma matches_more_tags q selected selected' pkg b :
  selected <> [] -> (forall v, v ∈ selected -> v ∈ selected') ->
  matches q selected pkg = Ok b ->
  exists b', matches q selected' pkg = Ok b' /\ (b = true -> b' = true).
Proof.
  intros Hne Hsub. unfold matches.
  destruct (normalize "" pkg) as [f|]; cbn [mbind result_bind]; [|done].
  match goal with
  | |- ?m ≫= _ = _ -> _ =>
      destruct m as [ms|]; cbn [mbind result_bind]; [|done]
  end.
  destruct selected as [|s0 sel]; [done|].
  destruct selected' as [|s0' sel'].
  { exfalso. eapply elem_of_nil, Hsub. left. }
  destruct (JS.truthy (tags f)).
  - destruct (tags f); try done. cbn [mbind result_bind]. intros [= <-].
    eexists. split; [done|].
    intros [-> Hex]%andb_true_iff. cbn [andb].
    by eapply existsb_has_mono.
  - cbn [mbind result_bind]. intros [= <-]. eexists. split; [done|].
    by rewrite andb_false_r.
Qed.

(** X15: With a selection that is not empty, selecting more tags never hides a
    package: if the filter comes to its end with the selection, it does
    with the larger one, and shows at least the same packages. *)
Theorem applyFilters_more_tags st st' shown :
  selectedTags st <> [] ->
  (forall v, v ∈ selectedTags st -> v ∈ selectedTags st') ->
  searchInput st' = searchInput st -> packages st' = packages st ->
  applyFilters st = Ok shown ->
  exists shown',
    applyFilters st' = Ok shown' /\
    sublist (filteredPackages shown) (filteredPackages shown').
Proof.
  intros Hne Hsub Hq Hp. unfold applyFilters. rewrite Hq, Hp.
  destruct (filterM _ _) as [kept|] eqn:E; cbn [mbind result_bind]; [|done].
  intros [= <-].
  destruct (filterM_mono _
              (matches (Str.toLowerCase (searchInput st)) (selectedTags st'))
              _ _ ltac:(intros x b _; by apply matches_more_tags) E)
    as (kept' & -> & Hk).
  cbn [mbind result_bind]. eexists. by split.
Qed.

Lemma includes_trans a b c :
  Str.includes a b = true -> Str.includes b c = true ->
  Str.includes a c = true.
Proof.
  rewrite !StrFacts.includes_spec.
  intros (p1 & q1 & ->) (p2 & q2 & ->).
  exists (p1 +:+ p2), (q2 +:+ q1). by rewrite !StrFacts.app_assoc.
Qed.

Lemma includes_empty q : Str.includes "" q = true -> q = "".
Proof.
  rewrite StrFacts.includes_spec. intros (p & r & H).
  destruct p; [|done]. by destruct q.
Qed.

Lemma matches_longer_query q q' selected pkg b' :
  Str.includes q' q = true ->
  matches q' selected pkg = Ok b' ->
  exists b, matches q selected pkg = Ok b /\ (b' = true -> b = true).
Proof.
  intros Hin. unfold matches.
  destruct (normalize "" pkg) as [f|]; cbn [mbind result_bind]; [|done].
  assert (Hone : forall s, Str.includes s q' = true -> Str.includes s q = true)
    by (intros s Hs; by eapply includes_trans).
  set (tagsPart := match selected with [] => Ok true | _ => _ end).
  destruct (String.eqb q' "") eqn:Eq'.
  { apply String.eqb_eq in Eq' as ->. apply includes_empty in Hin as ->.
    cbn [String.eqb]. eauto. }
  assert (Htags : forall ms,
             (ms ≫= fun matchesSearch : bool =>
                     tagsPart ≫= fun matchesTags : bool =>
                                   Ok (matchesSearch && matchesTags))
             = Ok b' ->
             exists ms', ms = Ok ms' /\
               forall ms2, (ms' = true -> ms2 = true) ->
                 exists b, (tagsPart ≫= fun matchesTags : bool =>
                                          Ok (ms2 && matchesTags)) = Ok b /\
                           (b' = true -> b = true)).
  { intros [ms'|]; cbn [mbind result_bind]; [|done].
    destruct tagsPart as [mt|]; cbn [mbind result_bind]; [|done].
    intros [= <-]. eexists. split; [done|]. intros ms2 Hms2.
    eexists. split; [done|].
    intros [?%Hms2 ->]%andb_true_iff. by subst. }
  intros (ms' & Hms & Hrest)%Htags.
  destruct (String.eqb q "") eqn:Eq.
  { cbn [mbind result_bind]. by apply Hrest. }
  revert Hms.
  destruct (JS.get pkg "name") as [name|]; cbn [mbind result_bind]; [|done].
  destruct (JS.toLowerCase name) as [n|]; cbn [mbind result_bind]; [|done].
  destruct (Str.includes n q) eqn:En.
  { intros _. cbn [mbind result_bind]. by apply Hrest. }
  destruct (Str.includes n q') eqn:En'; [by rewrite Hone in En|].
  destruct (JS.toLowerCase (displayName f)) as [d|]; cbn [mbind result_bind];
    [|done].
  destruct (Str.includes d q) eqn:Ed.
  { intros _. cbn [mbind result_bind]. by apply Hrest. }
  destruct (Str.includes d q') eqn:Ed'; [by rewrite Hone in Ed|].
  destruct (JS.get pkg "description") as [description|];
    cbn [mbind result_bind]; [|done].
  destruct (JS.toLowerCase description) as [ds|]; cbn [mbind result_bind];
    [|done].
  destruct (Str.includes ds q) eqn:Es.
  { intros _. cbn [mbind result_bind]. by apply Hrest. }
  destruct (Str.includes ds q') eqn:Es'; [by rewrite Hone in Es|].
  destruct (JS.toLowerCase (authorName f)) as [a|]; cbn [mbind result_bind];
    [|done].
  intros [= <-]. apply Hrest. apply Hone.
Qed.

(** X16: A query that contains another one shows no package the other hides:
    if the filter comes to its end with the longer query, it does with
    the shorter one, which shows at least the same packages. *)
Theorem applyFilters_longer_query st st' shown' :
  Str.includes (searchInput st') (searchInput st) = true ->
  selectedTags st' = selectedTags st -> packages st' = packages st ->
  applyFilters st' = Ok shown' ->
  exists shown,
    applyFilters st = Ok shown /\
    sublist (filteredPackages shown') (filteredPackages shown).
Proof.
  intros Hin Hsel Hp. unfold applyFilters. rewrite Hsel, Hp.
  destruct (filterM _ _) as [kept'|] eqn:E; cbn [mbind result_bind]; [|done].
  intros [= <-].
  assert (Hlow : Str.includes (Str.toLowerCase (searchInput st'))
                              (Str.toLowerCase (searchInput st)) = true).
  { apply StrFacts.includes_spec in Hin as (p & r & ->).
    apply StrFacts.includes_spec.
    exists (Str.toLowerCase p), (Str.toLowerCase r).
    by rewrite !StrFacts.toLowerCase_app. }
  destruct (filterM_mono _
              (matches (Str.toLowerCase (searchInput st)) (selectedTags st))
              _ _ ltac:(intros x b _; by apply matches_longer_query) E)
    as (kept & -> & Hk).
  cbn [mbind result_bind]. eexists. by split.
Qed.

End FilterMoreFacts.

(** ** The handlers and the location *)

Module HandlerFacts.
Import RepositoryLoader.

Lemma elem_of_delete s v x : x ∈ JSSet.delete s v <-> x ∈ s /\ x <> v.
Proof. unfold JSSet.delete. rewrite list_elem_of_filter. tauto. Qed.

Lemma toggleTag_selected tag st st' :
  toggleTag tag st = Ok st' ->
  selectedTags st'
  = (if JSSet.has (selectedTags st) tag
     then JSSet.delete (selectedTags st) tag
     else JSSet.add (selectedTags st) tag) /\
  searchInput st' = searchInput st /\ packages st' = packages st.
Proof.
  unfold toggleTag.
  intros (_ & -> & -> & ->)%TagIndexFacts.applyFilters_keeps.
  by case_match.
Qed.

(** X17: Clicking a tag button twice gives back the selection (as a set), the
    search box and the packages shown by the filter before the clicks. *)
Theorem toggleTag_twice tag st st1 st2 :
  toggleTag tag st = Ok st1 -> toggleTag tag st1 = Ok st2 ->
  (forall v, v ∈ selectedTags st2 <-> v ∈ selectedTags st) /\
  searchInput st2 = searchInput st /\
  exists shown,
    applyFilters st = Ok shown /\
    filteredPackages st2 = filteredPackages shown.
Proof.
  intros H1 H2.
  destruct (toggleTag_selected _ _ _ H1) as (Hs1 & Hq1 & Hp1).
  destruct (toggleTag_selected _ _ _ H2) as (Hs2 & Hq2 & Hp2).
  assert (Hset : forall v, v ∈ selectedTags st2 <-> v ∈ selectedTags st).
  { intros v. rewrite Hs2, Hs1. unfold JSSet.has.
    destruct (decide (tag ∈ selectedTags st)) as [Hin|Hout].
    - rewrite (bool_decide_eq_true_2 _ Hin).
      rewrite bool_decide_eq_false_2
        by (rewrite elem_of_delete; naive_solver).
      rewrite LoadFacts.elem_of_add, elem_of_delete.
      destruct (decide (v = tag)); naive_solver.
    - rewrite (bool_decide_eq_false_2 _ Hout).
      rewrite bool_decide_eq_true_2
        by (rewrite LoadFacts.elem_of_add; by right).
      rewrite elem_of_delete, LoadFacts.elem_of_add. naive_solver. }
  split_and!; [done|congruence|].
  unfold toggleTag in H2.
  set (pre := updateURL _) in H2.
  assert (Hpre : selectedTags pre = selectedTags st2 /\
                 searchInput pre = searchInput st /\
                 packages pre = packages st).
  { destruct (TagIndexFacts.applyFilters_keeps _ _ H2) as (_ & Hp & Hs & Hq).
    split_and!; congruence. }
  destruct Hpre as (Hs & Hq & Hp).
  pose proof (UrlFacts.applyFilters_ext st pre Hq Hp) as Hext.
  rewrite H2 in Hext.
  destruct (applyFilters st) as [shown|].
  - exists shown. split; [done|]. apply Hext. intros v. by rewrite Hs.
  - destruct Hext. intros v. by rewrite Hs.
Qed.

(** X18: [clearFilters] shows every package and leaves a state that agrees
    with its location: reading the location back, or writing it again,
    changes nothing. *)
Theorem clearFilters_settled st :
  filteredPackages (clearFilters st) = packages st /\
  loadFromURL (clearFilters st) = Ok (clearFilters st) /\
  updateURL (clearFilters st) = clearFilters st.
Proof. by destruct st. Qed.

(** X19: A fragment that comes with a query parameter is not read: the
    location with and without it give the same search box, selection and
    packages shown, or the same error. *)
Theorem loadFromURL_fragment_ignored st fragment :
  search st <> [] ->
  match loadFromURL st, loadFromURL (navigate (search st) fragment st) with
  | Ok a, Ok b =>
      filteredPackages b = filteredPackages a /\
      selectedTags b = selectedTags a /\ searchInput b = searchInput a
  | Throw e, Throw e' => e = e'
  | _, _ => False
  end.
Proof.
  intros Hne.
  assert (loadFromURL (navigate (search st) fragment st)
          = match loadFromURL st with
            | Ok a => Ok (navigate (search st) fragment a)
            | Throw e => Throw e
            end) as ->.
  { unfold loadFromURL. cbn [navigate search hash].
    rewrite !(bool_decide_eq_false_2 _ Hne), !andb_false_r.
    destruct (Params.truthy _ || Params.truthy _).
    - unfold applyFilters.
      match goal with
      | |- (filterM ?f ?l ≫= _) = match (filterM ?g ?k ≫= _) with _ => _ end =>
          replace (filterM f l) with (filterM g k)
            by (destruct st; by repeat case_match)
      end.
      destruct (filterM _ _); cbn [mbind result_bind]; [|done].
      destruct st; by repeat case_match.
    - destruct st; by repeat case_match. }
  by destruct (loadFromURL st).
Qed.

(** X20: The link that the share button of a card copies opens the page on
    that card: the package is shown, and every package shown has the id
    of the card; nothing is selected and the search box is empty. *)
Theorem shared_link_opens st pkg c :
  Forall (fun p => is_Some (Package.name_of p)) (packages st) ->
  pkg ∈ packages st -> createPackageCard pkg = Ok c -> id c <> "" ->
  exists st',
    loadFromURL (openShared (id c) st) = Ok st' /\
    pkg ∈ filteredPackages st' /\
    (forall p, p ∈ filteredPackages st' -> cardId p = Ok (id c)) /\
    selectedTags st' = [] /\ searchInput st' = "".
Proof.
  intros Hnames Hpkg Hcard Hid.
  assert (Hc : cardId pkg = Ok (id c)).
  { unfold createPackageCard in Hcard.
    destruct (cardId pkg) as [x|]; cbn [mbind result_bind] in Hcard; [|done].
    destruct (normalize _ _); cbn [mbind result_bind] in Hcard; [|done].
    destruct (JS.get _ _); cbn [mbind result_bind] in Hcard; [|done].
    by injection Hcard as <-. }
  assert (Hh : substring1 (hash (openShared (id c) st)) = id c).
  { unfold openShared. by destruct (id c). }
  assert (Hs : search (openShared (id c) st) = []) by done.
  unfold loadFromURL. rewrite Hs, Hh. cbv zeta.
  assert (String.eqb (id c) "" = false) as -> by (by apply String.eqb_neq).
  rewrite bool_decide_eq_true_2 by done. cbn [negb andb].
  change (packages (with_searchInput
                      (with_selectedTags (openShared (id c) st) []) ""))
    with (packages st).
  rewrite (FilterFacts.filterM_total _
             (fun p => match cardId p with
                       | Ok x => String.eqb x (id c)
                       | Throw _ => false
                       end)).
  - cbn [mbind result_bind]. eexists. split; [done|].
    cbn [filteredPackages with_filteredPackages selectedTags searchInput].
    split_and!; try done.
    + apply FilterFacts.elem_of_filter. split; [done|].
      rewrite Hc. apply String.eqb_refl.
    + intros p [_ Hp]%FilterFacts.elem_of_filter.
      destruct (cardId p) as [x|]; [|done].
      by apply String.eqb_eq in Hp as ->.
  - eapply Forall_impl; [exact Hnames|]. intros p [name Hname].
    rewrite (LinkFacts.cardId_slug _ _ Hname). done.
Qed.

End HandlerFacts.

(** ** The sources that fail, and the first page *)

Module ReportFacts.
Import RepositoryLoader.

Lemma omap_lookup_seq {A} (l : list A) :
  omap (fun i => l !! i) (seq 0 (length l)) = l.
Proof.
  induction l as [|x l IH]; [done|].
  cbn [length seq]. rewrite <- fmap_S_seq.
  change (omap (fun i => (x :: l) !! i) (0%nat :: (S <$> seq 0 (length l))))
    with (x :: omap (fun i => (x :: l) !! i) (S <$> seq 0 (length l))).
  f_equal. rewrite <- IH at 2.
  generalize (seq 0 (length l)). intros k.
  induction k as [|i k IHk]; [done|].
  rewrite fmap_cons. cbn [omap list_omap].
  change ((x :: l) !! S i) with (l !! i).
  destruct (l !! i); [f_equal|]; exact IHk.
Qed.

Section Net.
Variable net : string -> response.

Lemma loadManifest_errors repoUrl st :
  errors (loadManifest net repoUrl st).2
  = errors st ++ (if fails net repoUrl then [repoUrl] else []).
Proof.
  unfold loadManifest, fails.
  destruct (try_loadManifest net repoUrl) as [[m tags]|]; cbn.
  - by rewrite app_nil_r.
  - done.
Qed.

Lemma complete_errors repositories answered slots st :
  errors (foldl (complete net repositories) (slots, st) answered).2
  = errors st
    ++ List.filter (fails net) (omap (fun i => repositories !! i) answered).
Proof.
  revert slots st. induction answered as [|i answered IH]; intros slots st.
  - cbn. by rewrite app_nil_r.
  - cbn [foldl]. unfold complete at 2. cbn [fst snd omap list_omap].
    fold (@omap list _ _ _ (fun i => repositories !! i) answered).
    destruct (repositories !! i) as [repoUrl|]; [|apply IH].
    pose proof (loadManifest_errors repoUrl st) as He.
    destruct (loadManifest net repoUrl st) as [v st1]. cbn [snd] in He.
    rewrite IH, He, <- app_assoc. cbn [List.filter].
    by destruct (fails net repoUrl).
Qed.

Lemma loadManifest_location repoUrl st :
  search (loadManifest net repoUrl st).2 = search st /\
  hash (loadManifest net repoUrl st).2 = hash st.
Proof.
  unfold loadManifest.
  by destruct (try_loadManifest net repoUrl) as [[m tags]|].
Qed.

Lemma complete_location repositories answered slots st :
  search (foldl (complete net repositories) (slots, st) answered).2 = search st /\
  hash (foldl (complete net repositories) (slots, st) answered).2 = hash st.
Proof.
  revert slots st. induction answered as [|i answered IH]; intros slots st.
  - done.
  - cbn [foldl]. unfold complete at 2 4. cbn [fst snd].
    destruct (repositories !! i) as [repoUrl|]; [|apply IH].
    destruct (loadManifest_location repoUrl st) as [Hs Hh].
    destruct (loadManifest net repoUrl st) as [v st1]. cbn [snd] in Hs, Hh.
    destruct (IH (<[i:=Some (Fulfilled v)]> slots) st1) as [-> ->]. done.
Qed.

(** X21: [loadManifests] reports the sources whose call failed, each once, in
    the order in which the requests were answered, after the errors shown
    before; a source that is reported gives no package. *)
Theorem loadManifests_reports repositories answered st st' :
  answered ≡ₚ seq 0 (length repositories) ->
  loadManifests net repositories answered st = Some st' ->
  errors st'
  = errors st
    ++ List.filter (fails net) (omap (fun i => repositories !! i) answered) /\
  omap (fun i => repositories !! i) answered ≡ₚ repositories /\
  forall repoUrl, fails net repoUrl = true -> loaded net repoUrl = None.
Proof.
  intros Hperm Hload. split_and!.
  - unfold loadManifests in Hload.
    pose proof (complete_errors repositories answered
                  (replicate (length repositories) None) st) as He.
    destruct (foldl _ _ _) as [slots st1]. cbn [snd] in He.
    destruct (mapM _ slots); cbn [mbind option_bind] in Hload; [|done].
    by injection Hload as <-.
  - rewrite Hperm. by rewrite omap_lookup_seq.
  - intros repoUrl. unfold fails, loaded, try_loadManifest.
    destruct (net (packageUrl repoUrl)) as [|[] [m|]]; try done.
    destruct m; try done.
Qed.

(** X22: The first page: when the list of the sources is read and every
    request is answered, on a location without parameters and fragment,
    [loadRepositories] ends with all the loaded packages shown, nothing
    selected and an empty search box. *)
Theorem loadRepositories_shows_all repositories answered st :
  answered ≡ₚ seq 0 (length repositories) ->
  search st = [] -> substring1 (hash st) = "" ->
  exists st',
    loadRepositories net (Listing repositories) answered st = Some st' /\
    packages st' = omap (loaded net) repositories /\
    filteredPackages st' = packages st' /\
    selectedTags st' = [] /\ searchInput st' = "".
Proof.
  intros Hperm Hs Hh. unfold loadRepositories.
  rewrite (LoadFacts.loadManifests_run net repositories answered st Hperm).
  cbn [mbind option_bind].
  destruct (complete_location repositories answered
              (replicate (length repositories) None) st) as (Hs1 & Hh1).
  destruct (foldl _ _ _) as [slots st1]. cbn [fst snd] in *.
  eexists. split; [reflexivity|].
  unfold loadFromURL.
  cbn [search hash with_filteredPackages with_packages].
  rewrite Hs1, Hh1, Hs, Hh. cbn. done.
Qed.

End Net.

End ReportFacts.

(** ** The location does not depend on the order of the clicks *)

Module UrlOrderFacts.
Import RepositoryLoader.

Lemma sort_strings_unique l l' :
  Forall (fun v => exists s, v = VStr s) l -> l ≡ₚ l' ->
  JS.sort l = JS.sort l'.
Proof.
  intros Hstr Hperm.
  apply (StronglySorted_unique_strong JS.le).
  - intros x1 x2 H1 H2 H12 H21.
    rewrite SortFacts.sort_perm in H1. rewrite SortFacts.sort_perm in H2.
    rewrite <- Hperm in H2. rewrite Forall_forall in Hstr.
    destruct (Hstr _ H1) as [s1 ->]. destruct (Hstr _ H2) as [s2 ->].
    apply SortFacts.le_strings in H12, H21. f_equal.
    by apply (anti_symm String.le).
  - apply SortFacts.sort_sorted.
  - apply SortFacts.sort_sorted.
  - by rewrite !SortFacts.sort_perm.
Qed.

(** X23: The location that [updateURL] writes depends on the tags selected and
    not on the order in which they were selected: text tags selected in
    two orders, with the same search box, give the same parameters. *)
Theorem updateURL_any_order st st' :
  Forall (fun v => exists s, v = VStr s) (selectedTags st) ->
  selectedTags st ≡ₚ selectedTags st' ->
  searchInput st' = searchInput st ->
  search (updateURL st') = search (updateURL st) /\
  hash (updateURL st') = hash (updateURL st).
Proof.
  intros Hstr Hperm Hq. unfold updateURL.
  rewrite Hq, <- (sort_strings_unique _ _ Hstr Hperm).
  rewrite <- (Permutation_length Hperm). done.
Qed.

End UrlOrderFacts.

(** ** The sample page, once more *)

Module PageSampleFacts.
Import RepositoryLoader Sample.

Lemma formatCount_exact_tenths_witness :
  formatCount (100 * 15) = Float.decimal1 15 +:+ "K" /\
  formatCount (100000 * 15) = Float.decimal1 15 +:+ "M".
Proof.
  destruct (FormatCountFacts.formatCount_exact_tenths 15) as [HK HM].
  split; [apply HK; lia|apply HM; lia].
Defined.

Lemma loadFromURL_selects_known_witness :
  let st := navigate [("tags", "a, zz,,b")] "" page in
  let st' := with_filteredPackages
               (with_selectedTags st [VStr "a"; VStr "b"]) [pkg1; pkg2] in
  (forall tag,
      tag ∈ selectedTags st' ->
      tag ∈ allTags st /\
      exists joined piece,
        Params.get (search st) "tags" = Some joined /\
        piece ∈ Str.split joined /\
        tag = VStr (Str.trim piece) /\ Str.trim piece <> "") /\
  allTags st' = allTags st /\ packages st' = packages st /\
  search st' = search st /\ hash st' = hash st.
Proof.
  apply (PageFacts.loadFromURL_selects_known
           (navigate [("tags", "a, zz,,b")] "" page)).
  vm_compute. reflexivity.
Defined.




Lemma applyFilters_more_tags_witness :
  exists shown',
    applyFilters (searching "" [VStr "b"; VStr "c,d"]) = Ok shown' /\
    sublist
      (filteredPackages (with_filteredPackages (searching "" [VStr "b"]) [pkg1]))
      (filteredPackages shown').
Proof.
  apply (FilterMoreFacts.applyFilters_more_tags
           (searching "" [VStr "b"]) (searching "" [VStr "b"; VStr "c,d"])).
  - simpl. discriminate.
  - simpl. intros v Hv. apply list_elem_of_singleton in Hv as ->. left.
  - reflexivity.
  - reflexivity.
  - vm_compute. reflexivity.
Defined.

Lemma applyFilters_longer_query_witness :
  exists shown,
    applyFilters (searching "Pack" []) = Ok shown /\
    sublist
      (filteredPackages
         (with_filteredPackages (searching "my Package" []) [pkg1; pkg3]))
      (filteredPackages shown).
Proof.
  apply (FilterMoreFacts.applyFilters_longer_query
           (searching "Pack" []) (searching "my Package" [])).
  - vm_compute. reflexivity.
  - reflexivity.
  - reflexivity.
  - vm_compute. reflexivity.
Defined.

Lemma toggleTag_twice_witness :
  let st1 := with_filteredPackages
               (with_selectedTags (pushState page [("tags", "c,d")])
                                  [VStr "c,d"])
               [pkg2] in
  let st2 := with_filteredPackages
               (with_selectedTags (pushState page []) [])
               [pkg1; pkg2; pkg3] in
  (forall v, v ∈ selectedTags st2 <-> v ∈ selectedTags page) /\
  searchInput st2 = searchInput page /\
  exists shown,
    applyFilters page = Ok shown /\
    filteredPackages st2 = filteredPackages shown.
Proof.
  intros st1 st2.
  apply (HandlerFacts.toggleTag_twice (VStr "c,d") page st1 st2).
  - vm_compute. reflexivity.
  - vm_compute. reflexivity.
Defined.

Lemma loadFromURL_fragment_ignored_witness :
  match loadFromURL (navigate [("q", "other")] "" page),
        loadFromURL
          (navigate (search (navigate [("q", "other")] "" page))
                    "#my-package-1" (navigate [("q", "other")] "" page)) with
  | Ok a, Ok b =>
      filteredPackages b = filteredPackages a /\
      selectedTags b = selectedTags a /\ searchInput b = searchInput a
  | Throw e, Throw e' => e = e'
  | _, _ => False
  end.
Proof.
  apply (HandlerFacts.loadFromURL_fragment_ignored
           (navigate [("q", "other")] "" page) "#my-package-1").
  simpl. discriminate.
Defined.

Lemma shared_link_opens_witness :
  let c := {| id := "other";
              shown := {| displayName := VStr "Other Tool";
                          authorName := VStr "Unknown";
                          tags := VArr [VStr "a"; VStr "c,d"] |};
              status := VStr "unknown" |} in
  exists st',
    loadFromURL (openShared (id c) page) = Ok st' /\
    pkg2 ∈ filteredPackages st' /\
    (forall p, p ∈ filteredPackages st' -> cardId p = Ok (id c)) /\
    selectedTags st' = [] /\ searchInput st' = "".
Proof.
  apply (HandlerFacts.shared_link_opens page pkg2).
  - simpl. repeat constructor; eexists; reflexivity.
  - simpl. right. left.
  - vm_compute. reflexivity.
  - simpl. discriminate.
Defined.

Lemma loadManifests_reports_witness :
  errors after_load
  = errors new
    ++ List.filter (fails net) (omap (fun i => repositories !! i) answered) /\
  omap (fun i => repositories !! i) answered ≡ₚ repositories /\
  forall repoUrl, fails net repoUrl = true -> loaded net repoUrl = None.
Proof.
  apply (ReportFacts.loadManifests_reports net repositories answered
           new after_load).
  - apply (bool_decide_unpack _). vm_compute. exact I.
  - vm_compute. reflexivity.
Defined.

Lemma loadRepositories_shows_all_witness :
  exists st',
    loadRepositories net (Listing repositories) answered new = Some st' /\
    packages st' = omap (loaded net) repositories /\
    filteredPackages st' = packages st' /\
    selectedTags st' = [] /\ searchInput st' = "".
Proof.
  apply (ReportFacts.loadRepositories_shows_all net repositories answered new).
  - apply (bool_decide_unpack _). vm_compute. exact I.
  - reflexivity.
  - reflexivity.
Defined.

Lemma updateURL_any_order_witness :
  search (updateURL (searching "x" [VStr "a"; VStr "b"]))
  = search (updateURL (searching "x" [VStr "b"; VStr "a"])) /\
  hash (updateURL (searching "x" [VStr "a"; VStr "b"]))
  = hash (updateURL (searching "x" [VStr "b"; VStr "a"])).
Proof.
  apply (UrlOrderFacts.updateURL_any_order
           (searching "x" [VStr "b"; VStr "a"])
           (searching "x" [VStr "a"; VStr "b"])).
  - simpl. repeat constructor; eexists; reflexivity.
  - simpl. apply perm_swap.
  - reflexivity.
Defined.

End PageSampleFacts.
